(** * Matplotlib annotation plots of HoloViews

    A shallow embedding of [holoviews/plotting/mpl/annotation.py] and the
    properties its specification states about it.

    Python values are embedded as follows.  Floating-point numbers are
    binary64 floats ([float], the kernel's IEEE 754 doubles: what numpy
    arrays and matplotlib coordinates hold), integers are [Z] with numpy's
    64-bit wrap-around written out; list indices are [Z]/[nat]; strings are
    [string]; dictionaries ([opts], [plot_kwargs], [self.handles]) are
    [gmap]s keyed by strings; numpy arrays that are updated in place live in
    a store of references, each with its dtype; the items of an object array
    are Python objects with an identity.  Methods are computations in a
    state-and-exception monad: a raised exception keeps the mutations made
    before it. *)

From Stdlib Require Import Floats ZArith Ascii.
From stdpp Require Import base list gmap strings.

Local Open Scope string_scope.

(** ** Exceptions and the method monad *)

Inductive exn : Type :=
| UnboundLocalError (name : string)
| ZeroDivisionError
| KeyError (key : string)
| TypeError
| UFuncTypeError          (* numpy's subclass of TypeError *)
| IndexError
| ValueError
| AttributeError (name : string)
| AbbreviatedException (cause : exn).

Inductive result (A : Type) : Type :=
| Ok (a : A)
| Raise (e : exn).
Arguments Ok {A} a.
Arguments Raise {A} e.

Definition is_ok {A} (r : result A) : bool :=
  match r with Ok _ => true | Raise _ => false end.

(** A method over receiver state [S]: it returns or raises, and leaves a
    state either way. *)
Definition M (S A : Type) : Type := S -> result A * S.

Definition ret {S A} (a : A) : M S A := fun s => (Ok a, s).
Definition raise {S A} (e : exn) : M S A := fun s => (Raise e, s).
Definition bind {S A B} (c : M S A) (k : A -> M S B) : M S B :=
  fun s => match c s with
           | (Ok a, s') => k a s'
           | (Raise e, s') => (Raise e, s')
           end.
Definition gets {S A} (f : S -> A) : M S A := fun s => (Ok (f s), s).
Definition modify {S} (f : S -> S) : M S unit := fun s => (Ok tt, f s).

Declare Scope py_scope.
Delimit Scope py_scope with py.
Notation "x <- c ;; k" := (bind c (fun x => k))
  (at level 100, c at next level, right associativity) : py_scope.
Notation "c ;; k" := (bind c (fun _ => k))
  (at level 100, right associativity) : py_scope.
Local Open Scope py_scope.

(** [for x in l: body(x)] *)
Fixpoint for_each {S A} (l : list A) (body : A -> M S unit) : M S unit :=
  match l with
  | [] => ret tt
  | x :: l' => body x ;; for_each l' body
  end.

(** ** Values held by style dictionaries and arrays *)

Inductive scalar : Type :=
| SNone
| SNum (x : float)
| SInt (n : Z)
| SStr (s : string)
| SRGBA (cmap : string) (arg : scalar)    (* the colour [cmap(arg)] *)
| SRef (id : nat) (v : scalar).
    (* the Python object of identity [id], whose value is [v]: what an array
       of dtype object holds.  An array of another dtype holds plain values,
       boxed in a new object each time an item is read. *)

Inductive value : Type :=
| Scalar (v : scalar)
| NdArray (kind : ascii) (items : list scalar)   (* np.ndarray, dtype.kind *)
| Colormap (name : string).

Abbreviation kwargs := (gmap string value).

(** [{k: d[k] for k in keys if k in d}] *)
Definition restrict (keys : list string) (d : kwargs) : kwargs :=
  foldr (fun k acc => match d !! k with
                      | Some v => <[k := v]> acc
                      | None => acc
                      end) ∅ keys.

(** ** Numbers

    A number is an integer or a float.  Integers are those of numpy's
    default integer type, int64: arithmetic between them wraps around at 64
    bits, and a Python integer in that range behaves alike. *)

Inductive number : Type :=
| NInt (n : Z)
| NFloat (x : float).

Fixpoint as_number (s : scalar) : option number :=
  match s with
  | SInt n => Some (NInt n)
  | SNum x => Some (NFloat x)
  | SRef _ v => as_number v
  | _ => None
  end.

Definition of_number (a : number) : scalar :=
  match a with NInt n => SInt n | NFloat x => SNum x end.

Definition wrap64 (z : Z) : Z := ((z + 2 ^ 63) mod 2 ^ 64 - 2 ^ 63)%Z.

(** The binary64 float nearest to an integer (ties to even). *)
Definition float_of_int (n : Z) : float :=
  SF2Prim (binary_normalize 53 1024 n 0 false).

Definition to_float (a : number) : float :=
  match a with NInt n => float_of_int n | NFloat x => x end.

(** [a - b]: in int64 between integers, in binary64 as soon as one
    operand is a float. *)
Definition minus (a b : number) : number :=
  match a, b with
  | NInt m, NInt n => NInt (wrap64 (m - n))
  | _, _ => NFloat (to_float a - to_float b)
  end.

(** numpy's true division [a / b]: both operands as binary64, divided as
    IEEE 754 has it (a zero divisor gives an infinity or NaN, no exception). *)
Definition true_divide (a b : number) : float := (to_float a / to_float b)%float.

(** ** The canvas: a matplotlib Axes as the plots use it *)

Definition handle := nat.

Inductive signal := xlim_changed | ylim_changed.

#[global] Instance signal_eq_dec : EqDecision signal.
Proof. solve_decision. Defined.

(** An [ABLine2D] instance: a [Line2D] with its slope and intercept. *)
Record line2d := Line2D {
  _slope : float;
  _intercept : float;
  xdata : list float;
  ydata : list float;
  line_opts : kwargs
}.

Inductive artist : Type :=
| AxHLine (y : float) (opts : kwargs)                 (* axis.axhline *)
| AxVLine (x : float) (opts : kwargs)                 (* axis.axvline *)
| AxHSpan (ymin ymax : float) (opts : kwargs)         (* axis.axhspan *)
| AxVSpan (xmin xmax : float) (opts : kwargs)         (* axis.axvspan *)
| ABLine (l : line2d)                                 (* axis.add_line *)
| TextArtist (x y : float) (text : string) (kw : kwargs)          (* axis.text *)
| AnnotationArtist (text : string) (xy xytext : float * float)
                   (arrowprops textopts : kwargs)     (* axis.annotate *)
| PathPatch (verts : list (float * float)) (codes : list Z) (opts : kwargs)
                                                      (* axis.add_patch *)
| ScatterArtist (xs ys : list float).                 (* axis.scatter, s=0 *)

Record axes := Axes {
  children : gmap handle artist;    (* the artists currently on the axes *)
  next_id : handle;                 (* identity of the next artist created *)
  xbound : float * float;           (* get_xbound() *)
  callbacks : list (signal * handle);
    (* the callbacks.connect calls made, with the artist each bound method
       belongs to; the registry holds bound methods weakly, so an entry
       stands for a callback only while its artist is alive *)
  canvas_draws : nat;               (* figure.canvas.draw() calls *)
  artist_draws : list handle        (* draw_artist(artist) calls, in order *)
}.

Definition set_children (f : gmap handle artist -> gmap handle artist) (ax : axes) : axes :=
  Axes (f (children ax)) (next_id ax) (xbound ax) (callbacks ax)
       (canvas_draws ax) (artist_draws ax).

(** Creating an artist registers it under a fresh identity. *)
Definition add_artist (a : artist) : M axes handle :=
  fun ax => (Ok (next_id ax),
             Axes (<[next_id ax := a]> (children ax)) (S (next_id ax)) (xbound ax)
                  (callbacks ax) (canvas_draws ax) (artist_draws ax)).

Definition axhline (y : float) (opts : kwargs) := add_artist (AxHLine y opts).
Definition axvline (x : float) (opts : kwargs) := add_artist (AxVLine x opts).
Definition axhspan (p : float * float) (opts : kwargs) := add_artist (AxHSpan p.1 p.2 opts).
Definition axvspan (p : float * float) (opts : kwargs) := add_artist (AxVSpan p.1 p.2 opts).
(** [axis.text(x, y, s, **kw)]; the keywords are to be properties of a
    matplotlib Text, which takes no other. *)
Definition axes_text (x y : float) (s : string) (kw : kwargs) := add_artist (TextArtist x y s kw).
Definition annotate (s : string) (xy xytext : float * float) (arrowprops textopts : kwargs) :=
  add_artist (AnnotationArtist s xy xytext arrowprops textopts).
Definition add_patch (verts : list (float * float)) (codes : list Z) (opts : kwargs) :=
  add_artist (PathPatch verts codes opts).
Definition scatter (xs ys : list float) := add_artist (ScatterArtist xs ys).

(** [artist.remove()]: takes the artist off the axes; an artist that is not
    on the axes cannot be removed. *)
Definition remove (h : handle) : M axes unit :=
  fun ax => match children ax !! h with
            | Some _ => (Ok tt, set_children (delete h) ax)
            | None => (Raise ValueError, ax)
            end.

Definition canvas_draw : M axes unit :=
  modify (fun ax => Axes (children ax) (next_id ax) (xbound ax) (callbacks ax)
                         (S (canvas_draws ax)) (artist_draws ax)).

Definition draw_artist (h : handle) : M axes unit :=
  modify (fun ax => Axes (children ax) (next_id ax) (xbound ax) (callbacks ax)
                         (canvas_draws ax) (artist_draws ax ++ [h])).

Definition callbacks_connect (s : signal) (h : handle) : M axes unit :=
  modify (fun ax => Axes (children ax) (next_id ax) (xbound ax) (callbacks ax ++ [(s, h)])
                         (canvas_draws ax) (artist_draws ax)).

Definition get_xbound : M axes (list float) :=
  gets (fun ax => [(xbound ax).1; (xbound ax).2]).

(** ** class ABLine2D(Line2D) *)
Module ABLine2D.

(** [self], while it is on its axes ([self.axes] is None otherwise). *)
Definition self_line (self : handle) : M axes line2d :=
  fun ax => match children ax !! self with
            | Some (ABLine l) => (Ok l, ax)
            | _ => (Raise (AttributeError "axes"), ax)
            end.

Definition set_data (self : handle) (x y : list float) : M axes unit :=
  l <- self_line self ;;
  modify (set_children
            <[self := ABLine (Line2D (_slope l) (_intercept l) x y (line_opts l))]>).

Definition _update_lim (self : handle) : M axes unit :=
  l <- self_line self ;;
  x <- get_xbound ;;
  let y := map (fun xi => (_slope l * xi + _intercept l)%float) x in
  set_data self x y ;;
  draw_artist self.

Definition __init__ (slope intercept : float) (opts : kwargs) : M axes handle :=
  self <- add_artist (ABLine (Line2D slope intercept [] [] opts)) ;;
  canvas_draw ;;
  _update_lim self ;;
  callbacks_connect xlim_changed self ;;
  callbacks_connect ylim_changed self ;;
  ret self.

End ABLine2D.

(** The canvas changes its x-bounds and notifies the ['xlim_changed']
    subscribers in the order they connected, all of them taken to be alive. *)
Definition set_xbound (lo hi : float) : M axes unit :=
  modify (fun ax => Axes (children ax) (next_id ax) (lo, hi) (callbacks ax)
                         (canvas_draws ax) (artist_draws ax)) ;;
  cbs <- gets callbacks ;;
  for_each (filter (fun c => c.1 = xlim_changed) cbs)
           (fun c => ABLine2D._update_lim c.2).

(** ** The plot object ([self]) of an AnnotationPlot *)

Record plot := Plot {
  invert_axes : bool;
  handles_axis : axes;                 (* self.handles['axis'] *)
  handles_annotations : list handle;   (* self.handles['annotations'] *)
  warnings : list string               (* self.param.warning(...) *)
}.

Definition set_annotations (hs : list handle) (p : plot) : plot :=
  Plot (invert_axes p) (handles_axis p) hs (warnings p).

Definition param_warning (msg : string) : M plot unit :=
  modify (fun p => Plot (invert_axes p) (handles_axis p) (handles_annotations p)
                        (warnings p ++ [msg])).

(** A call on [axis], which is [self.handles['axis']]. *)
Definition on_axis {A} (c : M axes A) : M plot A :=
  fun p => let '(r, ax) := c (handles_axis p) in
           (r, Plot (invert_axes p) ax (handles_annotations p) (warnings p)).

(** Python's true division of floats. *)
Definition truediv {S} (a b : float) : M S float :=
  if (b =? 0)%float then raise ZeroDivisionError else ret (a / b)%float.

(** [str.lower()] on the ASCII range. *)
Definition lower_ascii (c : ascii) : ascii :=
  let n := nat_of_ascii c in
  if (65 <=? n)%nat && (n <=? 90)%nat then ascii_of_nat (n + 32) else c.

Fixpoint lower (s : string) : string :=
  match s with
  | EmptyString => EmptyString
  | String c s' => String (lower_ascii c) (lower s')
  end.

(** ** The annotation elements ([annotation.data] by kind) *)

Record text_data := TextData {
  text_x : float; text_y : float; text_text : string; text_fontsize : float;
  text_horizontalalignment : string; text_verticalalignment : string;
  text_rotation : float
}.

Record arrow_data := ArrowData {
  arrow_x : float; arrow_y : float; arrow_text : string;
  arrow_direction : string; arrow_points : float; arrow_arrowstyle : string
}.

Inductive annotation : Type :=
| VLine (position : float)
| HLine (position : float)
| VSpan (positions : float * float)
| HSpan (positions : float * float)
| Slope (position : float * float)
| Text (data : text_data)
| Arrow (data : arrow_data)
| Spline (verts : list (float * float)) (codes : list Z).

Module VLinePlot.
Definition draw_annotation (position : float) (opts : kwargs) : M plot (list handle) :=
  inv <- gets invert_axes ;;
  if inv then h <- on_axis (axhline position opts) ;; ret [h]
  else h <- on_axis (axvline position opts) ;; ret [h].
End VLinePlot.

Module HLinePlot.
Definition draw_annotation (position : float) (opts : kwargs) : M plot (list handle) :=
  inv <- gets invert_axes ;;
  if inv then h <- on_axis (axvline position opts) ;; ret [h]
  else h <- on_axis (axhline position opts) ;; ret [h].
End HLinePlot.

Module VSpanPlot.
Definition draw_annotation (positions : float * float) (opts : kwargs) : M plot (list handle) :=
  inv <- gets invert_axes ;;
  if inv then h <- on_axis (axhspan positions opts) ;; ret [h]
  else h <- on_axis (axvspan positions opts) ;; ret [h].
End VSpanPlot.

Module HSpanPlot.
Definition draw_annotation (positions : float * float) (opts : kwargs) : M plot (list handle) :=
  inv <- gets invert_axes ;;
  if inv then h <- on_axis (axvspan positions opts) ;; ret [h]
  else h <- on_axis (axhspan positions opts) ;; ret [h].
End HSpanPlot.

Module SlopePlot.

(** The local [gradient] holds a number, or the pair [np.inf, np.inf]. *)
Inductive gradient_local := Number (g : float) | Pair (a b : float).

(** The locals [gradient, intercept] as they stand before the artist is
    built (lines 140 to 145). *)
Definition locals (position : float * float) : M plot (gradient_local * float) :=
  let '(gradient, intercept) := position in
  inv <- gets invert_axes ;;
  if inv then
    if (gradient =? 0)%float then ret (Pair infinity infinity, intercept)
    else g <- truediv 1 gradient ;;
         q <- truediv intercept gradient ;;
         ret (Number g, (- q)%float)
  else ret (Number gradient, intercept).

Definition draw_annotation (position : float * float) (opts : kwargs) : M plot (list handle) :=
  _ <- locals position ;;
  artist <- on_axis (ABLine2D.__init__ position.1 position.2 opts) ;;
  ret [artist].

End SlopePlot.

Module TextPlot.
Definition style_opts : list string := ["alpha"; "color"; "family"; "weight"; "visible"].

Definition draw_annotation (data : text_data) (opts : kwargs) : M plot (list handle) :=
  let '(TextData x y text fontsize horizontalalignment verticalalignment rotation) := data in
  inv <- gets invert_axes ;;
  let '(x, y) := if inv then (y, x) else (x, y) in
  let opts := <["fontsize" := Scalar (SNum fontsize)]> opts in
  h <- on_axis (axes_text x y text
                  (<["horizontalalignment" := Scalar (SStr horizontalalignment)]>
                     (<["verticalalignment" := Scalar (SStr verticalalignment)]>
                        (<["rotation" := Scalar (SNum rotation)]> opts)))) ;;
  ret [h].
End TextPlot.

Module ArrowPlot.
Definition _arrow_style_opts : list string := ["alpha"; "color"; "lw"; "linewidth"; "visible"].
Definition _text_style_opts : list string := TextPlot.style_opts ++ ["textsize"; "fontsize"].

(** Lines 276 to 279: [xytext] is bound on two of the three paths. *)
Definition xytext_of (direction : string) (points : float) : option (float * float) :=
  if bool_decide (direction ∈ ["v"; "^"]) then
    Some (0%float, if bool_decide (direction = "v") then points else (- points)%float)
  else if bool_decide (direction ∈ [">"; "<"]) then
    Some (if bool_decide (direction = "<") then points else (- points)%float, 0%float)
  else None.

Definition draw_annotation (data : arrow_data) (opts : kwargs) : M plot (list handle) :=
  let '(ArrowData x y text direction points arrowstyle) := data in
  inv <- gets invert_axes ;;
  let '(x, y) := if inv then (y, x) else (x, y) in
  let direction := lower direction in
  let arrowprops :=
    restrict _arrow_style_opts opts ∪ {["arrowstyle" := Scalar (SStr arrowstyle)]} in
  let textopts := restrict _text_style_opts opts in
  let xytext := xytext_of direction points in
  (if bool_decide (is_Some (textopts !! "fontsize")) then
     param_warning
       "Arrow fontsize style option is deprecated, use textsize option instead."
   else ret tt) ;;
  let textopts := match textopts !! "textsize" with
                  | Some v => <["fontsize" := v]> (delete "textsize" textopts)
                  | None => textopts
                  end in
  match xytext with
  | None => raise (UnboundLocalError "xytext")
  | Some xytext =>
      h <- on_axis (annotate text (x, y) xytext arrowprops textopts) ;;
      ret [h]
  end.
End ArrowPlot.

(** [matplotlib.path.Path(verts, codes)]: the codes are taken as uint8
    (numpy 1.x, which the module's [np.NaN] needs, reduces a Python integer
    modulo 256), there must be as many as vertices, and the first one must
    be MOVETO. *)
Definition MOVETO : Z := 1.

Definition Path {S} (verts : list (float * float)) (codes : list Z)
  : M S (list (float * float) * list Z) :=
  let codes := map (fun c => (c mod 256)%Z) codes in
  if negb (length codes =? length verts)%nat then raise ValueError
  else match codes with
       | c :: _ => if (c =? MOVETO)%Z then ret (verts, codes) else raise ValueError
       | [] => ret (verts, codes)
       end.

Module SplinePlot.
Definition draw_annotation (data : list (float * float) * list Z) (opts : kwargs)
  : M plot (list handle) :=
  let '(verts, codes) := data in
  if (length verts =? 0)%nat then ret []
  else path <- Path verts codes ;;
       patch <- on_axis (add_patch path.1 path.2
                           (<["facecolor" := Scalar (SStr "none")]> opts)) ;;
       ret [patch].
End SplinePlot.

(** The plot class is chosen by the element's kind: [self.draw_annotation]. *)
Definition draw_annotation (a : annotation) (opts : kwargs) : M plot (list handle) :=
  match a with
  | VLine position => VLinePlot.draw_annotation position opts
  | HLine position => HLinePlot.draw_annotation position opts
  | VSpan positions => VSpanPlot.draw_annotation positions opts
  | HSpan positions => HSpanPlot.draw_annotation positions opts
  | Slope position => SlopePlot.draw_annotation position opts
  | Text data => TextPlot.draw_annotation data opts
  | Arrow data => ArrowPlot.draw_annotation data opts
  | Spline verts codes => SplinePlot.draw_annotation (verts, codes) opts
  end.

(** ** Context managers: [with cm: body] *)

(** What [cm.__exit__] does with an exception raised by the body: swallow
    it (a true return value, here with the diagnostics it reports), let it
    propagate (a false one), or raise another in its place. *)
Inductive exit_outcome :=
| Suppress (diagnostics : list string)
| Propagate
| Reraise (e : exn).

Definition context_manager := exn -> exit_outcome.

(** States that collect diagnostics. *)
Class Reporting (S : Type) := report : list string -> S -> S.

#[global] Instance plot_reporting : Reporting plot :=
  fun diagnostics p =>
    Plot (invert_axes p) (handles_axis p) (handles_annotations p)
         (warnings p ++ diagnostics).

(** The [with] statement.  The block's result is [None] when the block
    raised and the manager swallowed the exception: the names the block
    would have bound stay as they were. *)
Definition with_ {S A} `{Reporting S} (cm : context_manager) (body : M S A)
  : M S (option A) :=
  fun s => match body s with
           | (Ok a, s') => (Ok (Some a), s')
           | (Raise e, s') =>
               match cm e with
               | Suppress diagnostics => (Ok None, report diagnostics s')
               | Propagate => (Raise e, s')
               | Reraise e' => (Raise e', s')
               end
           end.

(** Modelled from the spec: [abbreviated_exception] of [core/options.py],
    which the plots import; section 4.1 says that a failure inside draw "is
    caught, reported as a non-fatal styling diagnostic". *)
Definition abbreviated_exception_spec : context_manager :=
  fun _ => Suppress ["styling diagnostic"].

(** A manager that abbreviates: it raises [AbbreviatedException] in place
    of the exception of the block. *)
Definition abbreviating : context_manager :=
  fun e => Reraise (AbbreviatedException e).

(** ** class AnnotationPlot(ElementPlot) *)
Section AnnotationPlot.

(** Supplied by the host: the context manager of [core/options.py], range
    computation and axis finalization of the element-plot base class, and
    the instance's last element, last key and cycled style. *)
Variable abbreviated_exception : context_manager.
Variables key ranges axis_data : Type.
Variable compute_ranges : annotation -> key -> option ranges -> ranges.
Variable match_spec : annotation -> ranges -> ranges.
Variable _finalize_axis : key -> annotation -> ranges -> M plot axis_data.
Variable hmap_last : annotation.
Variable keys_last : key.
Variable style_cyclic_index : kwargs.

Definition initialize_plot (rs : option ranges) : M plot axis_data :=
  let annotation := hmap_last in
  let key := keys_last in
  let rs := compute_ranges annotation key rs in
  let rs := match_spec annotation rs in
  let opts := style_cyclic_index in
  block <- with_ abbreviated_exception (draw_annotation annotation opts) ;;
  handles <- match block with
             | Some handles => ret handles
             | None => raise (UnboundLocalError "handles")
             end ;;
  modify (set_annotations handles) ;;
  _finalize_axis key annotation rs.

(** Lines 74 and 75: the loop that clears the existing annotations. *)
Definition clear_annotations : M plot unit :=
  elements <- gets handles_annotations ;;
  for_each elements (fun element => on_axis (remove element)).

Definition update_handles (k : key) (annotation : annotation) (rs : ranges)
  (style : kwargs) : M plot unit :=
  clear_annotations ;;
  _ <- with_ abbreviated_exception
         (handles <- draw_annotation annotation style ;;
          modify (set_annotations handles)) ;;
  ret tt.

End AnnotationPlot.

(** ** class LabelsPlot(ColorbarPlot) *)

(** A column of positions: a numpy array of floats, of 64-bit integers or
    of strings (a categorical axis). *)
Inductive ndarray : Type :=
| FloatArray (items : list float)
| IntArray (items : list Z)
| StrArray (items : list string).

(** A Labels element: the values of its first three dimensions, and the
    values of the dimension a colour index names, if there is one. *)
Record element := Element {
  dimension_values_0 : ndarray;
  dimension_values_1 : ndarray;
  dimension_values_2 : list scalar;
  get_dimension : option scalar -> option value
}.

(** The plot object: its parameters (an offset is a [param.Number], an
    integer or a float), and the numpy arrays it has made, by identity. *)
Record labels_plot := LabelsPlotState {
  labels_invert_axes : bool;
  xoffset : option number;
  yoffset : option number;
  color_index : option scalar;
  arrays : gmap nat ndarray;
  next_array : nat;
  labels_warnings : list string
}.

#[global] Instance labels_plot_reporting : Reporting labels_plot :=
  fun diagnostics p =>
    LabelsPlotState (labels_invert_axes p) (xoffset p) (yoffset p) (color_index p)
                    (arrays p) (next_array p) (labels_warnings p ++ diagnostics).

Definition set_arrays (f : gmap nat ndarray -> gmap nat ndarray)
  (p : labels_plot) : labels_plot :=
  LabelsPlotState (labels_invert_axes p) (xoffset p) (yoffset p) (color_index p)
                  (f (arrays p)) (next_array p) (labels_warnings p).

(** A new array object holding [items]. *)
Definition new_array (items : ndarray) : M labels_plot nat :=
  fun p => (Ok (next_array p),
            LabelsPlotState (labels_invert_axes p) (xoffset p) (yoffset p) (color_index p)
                            (<[next_array p := items]> (arrays p)) (S (next_array p))
                            (labels_warnings p)).

(** numpy's in-place [add] of a number to every item.  The sum must be
    storable in the array: a float array takes any number, an integer array
    an integer only (the float64 sum of an integer array and a float is not
    cast back to int64), and a string array has no addition. *)
Definition add_in_place (a : ndarray) (offset : number) : result ndarray :=
  match a, offset with
  | FloatArray items, _ =>
      Ok (FloatArray (map (fun v => (v + to_float offset)%float) items))
  | IntArray items, NInt d => Ok (IntArray (map (fun n => wrap64 (n + d)) items))
  | IntArray _, NFloat _ => Raise UFuncTypeError
  | StrArray _, _ => Raise UFuncTypeError
  end.

(** [a += offset]: the array object [a] is updated in place, or left as it
    is when numpy raises. *)
Definition iadd (a : nat) (offset : number) : M labels_plot unit :=
  fun p => match arrays p !! a with
           | Some items =>
               match add_in_place items offset with
               | Ok items' => (Ok tt, set_arrays <[a := items']> p)
               | Raise e => (Raise e, p)
               end
           | None => (Ok tt, p)
           end.

(** The value an object stands for. *)
Fixpoint unref (a : scalar) : scalar :=
  match a with SRef _ v => unref v | _ => a end.

(** [n == x] between an integer and a float: Python compares the exact
    values. *)
Definition Z_eqb_float (n : Z) (x : float) : bool :=
  match Prim2SF x with
  | S754_zero _ => (n =? 0)%Z
  | S754_finite s m e =>
      let v := if s then Z.neg m else Z.pos m in
      if (0 <=? e)%Z then (n =? v * 2 ^ e)%Z else (n * 2 ^ (- e) =? v)%Z
  | _ => false
  end.

(** Python's [a == b] on the values an array holds: by value, whatever
    the objects; floats as IEEE 754 has it (NaN differs from itself), an
    integer and a float by their exact values. *)
Fixpoint scalar_eqb (a b : scalar) : bool :=
  match a, unref b with
  | SRef _ v, _ => scalar_eqb v b
  | SNone, SNone => true
  | SNum x, SNum y => (x =? y)%float
  | SInt m, SInt n => (m =? n)%Z
  | SInt m, SNum y => Z_eqb_float m y
  | SNum x, SInt n => Z_eqb_float n x
  | SStr s, SStr t => String.eqb s t
  | SRGBA c x, SRGBA d y => String.eqb c d && scalar_eqb x y
  | _, _ => false
  end.

(** [a is b]: the same object. *)
Definition is_ (a b : scalar) : bool :=
  match a, b with
  | SRef i _, SRef j _ => (i =? j)%nat
  | _, _ => false
  end.

(** The test that [in] and [list.index] apply to an item of a list:
    identity first, then [==]. *)
Definition identical_or_equal (a b : scalar) : bool := is_ a b || scalar_eqb a b.

(** [colors.index(color)], and [None] where [color in colors] is false. *)
Fixpoint index (color : scalar) (colors : list scalar) : option nat :=
  match colors with
  | [] => None
  | c :: colors' =>
      if identical_or_equal c color then Some 0 else S <$> index color colors'
  end.

Definition is_None (v : value) : bool :=
  match v with Scalar SNone => true | _ => false end.

(** [cmap(color)] *)
Definition call {S} (cmap : value) (color : scalar) : M S scalar :=
  match cmap with
  | Colormap name => ret (SRGBA name color)
  | _ => raise TypeError
  end.

(** [a - b] between numbers, and [a / b] where [a] is a numpy scalar (the
    difference of an array item and a bound): numpy's true division, which
    does not raise.  Anything that is not a number has no such operation. *)
Definition sub {S} (a b : value) : M S value :=
  match a, b with
  | Scalar x, Scalar y =>
      match as_number x, as_number y with
      | Some m, Some n => ret (Scalar (of_number (minus m n)))
      | _, _ => raise TypeError
      end
  | _, _ => raise TypeError
  end.

Definition div {S} (a b : value) : M S scalar :=
  match a, b with
  | Scalar x, Scalar y =>
      match as_number x, as_number y with
      | Some m, Some n => ret (SNum (true_divide m n))
      | _, _ => raise TypeError
      end
  | _, _ => raise TypeError
  end.

(** [dtype.kind in 'if'] *)
Definition kind_in_if (kind : ascii) : bool :=
  Ascii.eqb kind "i" || Ascii.eqb kind "f".

Module LabelsPlot.

Definition style_opts : list string :=
  ["alpha"; "color"; "family"; "weight"; "size"; "visible";
   "horizontalalignment"; "verticalalignment"; "cmap"; "rotation"].

Section LabelsPlot.

Variable abbreviated_exception : context_manager.
Variable ranges : Type.
Variable _apply_transforms : element -> ranges -> kwargs -> result kwargs.
Variable _norm_kwargs : element -> ranges -> kwargs -> kwargs.
Variable pprint_value : scalar -> string.
Variable np_unique : list scalar -> list scalar.

Definition get_data (element : element) (rs : ranges) (style : kwargs)
  : M labels_plot ((nat * nat * list string * value) * kwargs * kwargs) :=
  block <- with_ abbreviated_exception
             (fun self => (_apply_transforms element rs style, self)) ;;
  let style := default style block in
  xs <- new_array (dimension_values_0 element) ;;
  ys <- new_array (dimension_values_1 element) ;;
  let text := map pprint_value (dimension_values_2 element) in
  inv <- gets labels_invert_axes ;;
  let positions := if inv then (ys, xs) else (xs, ys) in
  xoffset <- gets xoffset ;;
  match xoffset with Some xoffset => iadd xs xoffset | None => ret tt end ;;
  yoffset <- gets yoffset ;;
  match yoffset with Some yoffset => iadd ys yoffset | None => ret tt end ;;
  color_index <- gets color_index ;;
  let cdim := get_dimension element color_index in
  let style := match cdim with
               | Some _ => _norm_kwargs element rs style
               | None => style
               end in
  let cs := default (Scalar SNone) cdim in
  let cs := default cs (style !! "c") in
  let style := delete "c" style in
  let style := match style !! "size" with
               | Some size => <["fontsize" := size]> (delete "size" style)
               | None => style
               end in
  let style := match style !! "horizontalalignment" with
               | Some _ => style
               | None => <["horizontalalignment" := Scalar (SStr "center")]> style
               end in
  let style := match style !! "verticalalignment" with
               | Some _ => style
               | None => <["verticalalignment" := Scalar (SStr "center")]> style
               end in
  ret ((positions.1, positions.2, text, cs), style, ∅).

(** What [init_artists] binds when [plot_args[-1]] is not None. *)
Record colouring := Colouring {
  cmap : value;
  colors : list scalar;
  vmin : value;
  vmax : value;
  kind : ascii             (* plot_args[-1].dtype.kind *)
}.

Definition item : Type := float * float * string * option scalar.
Definition spec : Type := float * float * string * kwargs.

(** [{k: v[i] for k, v in vectorized.items()}] *)
Definition vectorized_at {S} (i : nat) (vectorized : gmap string (list scalar))
  : M S kwargs :=
  if bool_decide (map_Forall (fun _ v => i < length v) vectorized)
  then ret ((fun v => Scalar (nth i v SNone)) <$> vectorized)
  else raise IndexError.

(** The closure [text_spec(i, item)]; its state is the dictionary
    [plot_kwargs] it shares with [init_artists]. *)
Definition text_spec (c : option colouring) (vectorized : gmap string (list scalar))
  (i : nat) (item : item) : M kwargs spec :=
  let '(x, y, text, color) := item in
  match color, c with
  | Some color, Some c =>
      if negb (is_None (cmap c)) then
        if kind_in_if (kind c) then
          num <- sub (Scalar color) (vmin c) ;;
          den <- sub (vmax c) (vmin c) ;;
          color <- div num den ;;
          rgba <- call (cmap c) color ;;
          modify <["color" := Scalar rgba]>
        else
          let color := match index color (colors c) with
                       | Some k => SInt (Z.of_nat k)
                       | None => SNum nan
                       end in
          rgba <- call (cmap c) color ;;
          modify <["color" := Scalar rgba]>
      else ret tt
  | _, _ => ret tt
  end ;;
  plot_kwargs <- gets id ;;
  entries <- vectorized_at i vectorized ;;
  ret (x, y, text, entries ∪ plot_kwargs).

(** [[text_spec(i, item) for i, item in enumerate(items)]], from index [i]. *)
Fixpoint text_specs (c : option colouring) (vectorized : gmap string (list scalar))
  (i : nat) (items : list item) : M kwargs (list spec) :=
  match items with
  | [] => ret []
  | item :: items' =>
      s <- text_spec c vectorized i item ;;
      ss <- text_specs c vectorized (S i) items' ;;
      ret (s :: ss)
  end.

(** [[ax.text(x, y, text, **kwargs) for x, y, text, kwargs in text_specs]] *)
Fixpoint texts (specs : list spec) : M axes (list handle) :=
  match specs with
  | [] => ret []
  | (x, y, text, kw) :: specs' =>
      h <- axes_text x y text kw ;;
      hs <- texts specs' ;;
      ret (h :: hs)
  end.

(** [plot_kwargs.pop(k)] *)
Definition pop {S} (k : string) (d : kwargs) : M S (value * kwargs) :=
  match d !! k with
  | Some v => ret (v, delete k d)
  | None => raise (KeyError k)
  end.

Definition init_artists
  (plot_args : list float * list float * list string * value) (plot_kwargs : kwargs)
  : M axes (gmap string (list handle)) :=
  let '(xs, ys, text, cs) := plot_args in
  let points := zip (zip xs ys) text in
  bound <-
    match cs with
    | Scalar SNone =>
        ret (None, map (fun p => (p, None)) points, plot_kwargs)
    | NdArray kind values =>
        let cmap := default (Scalar SNone) (plot_kwargs !! "cmap") in
        let plot_kwargs := delete "cmap" plot_kwargs in
        let colors := np_unique values in
        vmin <- pop "vmin" plot_kwargs ;;
        vmax <- pop "vmax" vmin.2 ;;
        ret (Some (Colouring cmap colors vmin.1 vmax.1 kind),
             zip_with (fun p color => (p, Some color)) points values,
             vmax.2)
    | _ => raise TypeError
    end ;;
  let '(c, items, plot_kwargs) := bound in
  let vectorized :=
    omap (fun v => match v with NdArray _ items => Some items | _ => None end)
         plot_kwargs in
  text_specs <- (fun ax => ((text_specs c vectorized 0 items plot_kwargs).1, ax)) ;;
  match text_specs with
  | [] => ret tt
  | _ => _ <- scatter (map (fun s => s.1.1.1) text_specs)
                      (map (fun s => s.1.1.2) text_specs) ;;
         ret tt
  end ;;
  artist <- texts text_specs ;;
  ret {["artist" := artist]}.

(** [teardown_handles], over [self.handles] and the axes. *)
Definition teardown_handles (handles : gmap string (list handle)) : M axes unit :=
  match handles !! "artist" with
  | Some artists => for_each artists remove
  | None => ret tt
  end.

End LabelsPlot.
End LabelsPlot.

(** * The vocabulary of the properties *)

(** An artist is live while it is on the axes. *)
Definition live (p : plot) (h : handle) : Prop :=
  is_Some (children (handles_axis p) !! h).

(** The stored handles are distinct and live, and every live artist was
    created before the next identity to be given out. *)
Definition handles_ok (p : plot) : Prop :=
  NoDup (handles_annotations p) /\
  (forall h, h ∈ handles_annotations p -> live p h) /\
  (forall h, live p h -> h < next_id (handles_axis p)).

Section Updates.

Variable abbreviated_exception : context_manager.
Variables key ranges : Type.

(** The arguments of one [update_handles] call; the host passes
    [self.handles['axis']] as [axis]. *)
Definition frame : Type := key * annotation * ranges * kwargs.

Definition update (f : frame) : M plot unit :=
  update_handles abbreviated_exception key ranges f.1.1.1 f.1.1.2 f.1.2 f.2.

(** The outcome of the frame's draw call, which runs on the plot as the
    clearing loop leaves it. *)
Definition drawn (f : frame) (p : plot) : result (list handle) :=
  (draw_annotation f.1.1.2 f.2 (clear_annotations p).2).1.

(** [P before frame outcome] holds at each call of a sequence of updates
    made one after the other from [p]. *)
Fixpoint at_each_update (P : plot -> frame -> result unit * plot -> Prop)
  (fs : list frame) (p : plot) : Prop :=
  match fs with
  | [] => True
  | f :: fs' => P p f (update f p) /\ at_each_update P fs' (update f p).2
  end.

End Updates.


(** The configured offset, if there is one, can be added in place to the
    column. *)
Definition addable (offset : option number) (column : ndarray) : bool :=
  match offset with
  | Some d => is_ok (add_in_place column d)
  | None => true
  end.

(** [k] is the index of the first element of [colors] that is [color]
    itself or equal to it. *)
Definition first_occurrence (color : scalar) (colors : list scalar) (k : nat) : Prop :=
  (exists c, colors !! k = Some c /\ identical_or_equal c color = true) /\
  (forall j c, j < k -> colors !! j = Some c -> identical_or_equal c color = false).






(** The keywords of [plot_kwargs] that [init_artists] hands to [ax.text]:
    the style options of the class other than [cmap], [size] under the
    name [get_data] gives it. *)
Definition text_keywords : list string :=
  ["alpha"; "color"; "family"; "weight"; "fontsize"; "visible";
   "horizontalalignment"; "verticalalignment"; "rotation"].



(** The colour keyword of the text artist [h], if there is one. *)
Definition text_color (ax : axes) (h : handle) : option value :=
  match children ax !! h with
  | Some (TextArtist _ _ _ kw) => kw !! "color"
  | _ => None
  end.

(** [np.unique] on the values modelled here: the distinct values in
    increasing order. *)
Definition scalar_ltb (a b : scalar) : bool :=
  match unref a, unref b with
  | SNum x, SNum y => (x <? y)%float
  | SInt m, SInt n => (m <? n)%Z
  | SStr s, SStr t => String.ltb s t
  | _, _ => false
  end.

Fixpoint insert_unique (c : scalar) (l : list scalar) : list scalar :=
  match l with
  | [] => [c]
  | d :: l' => if scalar_eqb d c then l
               else if scalar_ltb c d then c :: l
               else d :: insert_unique c l'
  end.

Definition sorted_unique (l : list scalar) : list scalar := foldr insert_unique [] l.

(** The codes of a path make whole segments: a point (MOVETO), a line
    (LINETO) and the closing of a polygon (CLOSEPOLY) take one vertex each,
    a quadratic curve two vertices under CURVE3 and a cubic curve three
    under CURVE4. *)
Definition LINETO : Z := 2.
Definition CURVE3 : Z := 3.
Definition CURVE4 : Z := 4.
Definition CLOSEPOLY : Z := 79.

Fixpoint whole_segments (codes : list Z) : bool :=
  match codes with
  | [] => true
  | c :: rest =>
      if ((c =? MOVETO) || (c =? LINETO) || (c =? CLOSEPOLY))%Z then whole_segments rest
      else if (c =? CURVE3)%Z then
        match rest with
        | c1 :: rest1 => (c1 =? CURVE3)%Z && whole_segments rest1
        | [] => false
        end
      else if (c =? CURVE4)%Z then
        match rest with
        | c1 :: c2 :: rest2 => (c1 =? CURVE4)%Z && (c2 =? CURVE4)%Z && whole_segments rest2
        | _ => false
        end
      else false
  end.

(** Every artist on the axes was created before the next identity to be
    given out. *)
Definition fresh_ids (ax : axes) : Prop :=
  forall h, is_Some (children ax !! h) -> h < next_id ax.

(** The deprecation message of [ArrowPlot.draw_annotation]. *)
Definition fontsize_deprecated : string :=
  "Arrow fontsize style option is deprecated, use textsize option instead.".

(** The style that [get_data] starts from once the transforms have
    returned [style1]: normalized for the colour dimension if there is one. *)
Definition labels_base_style {ranges : Type}
  (_norm_kwargs : element -> ranges -> kwargs -> kwargs)
  (el : element) (rs : ranges) (style1 : kwargs) (p : labels_plot) : kwargs :=
  match get_dimension el (color_index p) with
  | Some _ => _norm_kwargs el rs style1
  | None => style1
  end.

(** ** Inputs of the examples *)

Definition ax0 : axes := Axes ∅ 0 (0%float, 1%float) [] 0 [].

Definition bad_arrow : annotation := Arrow (ArrowData 1 2 "peak" "x" 40 "->").

Definition three_frames : list (frame unit unit) :=
  [(tt, Slope (2%float, 1%float), tt, ∅);
   (tt, VLine 2%float, tt, ∅);
   (tt, Spline [] [], tt, ∅)].

Definition labels_kwargs : kwargs :=
  <["cmap" := Colormap "viridis"]>
    (<["vmin" := Scalar (SNum 0)]>
       (<["vmax" := Scalar (SNum 10)]>
          (<["rotation" := NdArray "f" [SNum 0; SNum 90; SNum 45]]> ∅))).

(** A style without colours: keywords of [ax.text] only. *)
Definition labels_text_kwargs : kwargs :=
  <["rotation" := NdArray "f" [SNum 0; SNum 90; SNum 45]]>
    (<["fontsize" := Scalar (SNum 8)]> ∅).

Definition labels_kwargs_int : kwargs :=
  <["cmap" := Colormap "viridis"]>
    (<["vmin" := Scalar (SInt 0)]> (<["vmax" := Scalar (SInt 10)]> ∅)).

Definition labels_element : element :=
  Element (FloatArray [1; 2; 3]%float) (FloatArray [4; 5; 6]%float)
          [SStr "a"; SStr "b"; SStr "c"] (fun _ => None).

Definition labels_self (inv : bool) : labels_plot :=
  LabelsPlotState inv (Some (NFloat 0.5)) (Some (NInt 10)) None ∅ 0 [].



(** * Properties *)

(** Unfolds the monadic plumbing; the canvas maps are left alone. *)
Ltac run :=
  cbv [bind ret raise gets modify on_axis add_artist axhline axvline axhspan
       axvspan axes_text annotate add_patch scatter canvas_draw draw_artist
       callbacks_connect get_xbound set_children set_annotations param_warning
       ABLine2D.self_line ABLine2D.set_data ABLine2D._update_lim ABLine2D.__init__
       with_ report plot_reporting
       handles_axis handles_annotations invert_axes warnings
       children next_id xbound callbacks canvas_draws artist_draws
       _slope _intercept xdata ydata line_opts fst snd].

(** ** ABLine2D *)

(** C2.  On an axes whose x-bounds are [x0, x1], the callback
    [ABLine2D._update_lim] of a line with slope [m] and intercept [b] that
    is on the axes sets the line's data to the x pair [x0, x1] and the y
    pair [m*x0+b, m*x1+b] (in the binary64 arithmetic of the code), leaves
    slope, intercept and options as they were, and asks for a redraw of this
    artist only: one [draw_artist(self)] is logged, no canvas draw, and no
    other artist, bound or callback changes. *)
Theorem update_lim_sets_endpoints (self : handle) (ax : axes) (l : line2d) (x0 x1 : float) :
  children ax !! self = Some (ABLine l) ->
  xbound ax = (x0, x1) ->
  ABLine2D._update_lim self ax =
    (Ok tt,
     Axes (<[self := ABLine (Line2D (_slope l) (_intercept l) [x0; x1]
                               [(_slope l * x0 + _intercept l)%float;
                                (_slope l * x1 + _intercept l)%float]
                               (line_opts l))]> (children ax))
          (next_id ax) (x0, x1) (callbacks ax) (canvas_draws ax)
          (artist_draws ax ++ [self])).
Proof.
  intros Hself Hx. destruct ax as [ch n xb cbs cd ad]; simpl in *. subst xb.
  run. rewrite Hself. run. rewrite Hself. reflexivity.
Qed.

Lemma update_lim_sets_endpoints_witness :
  ABLine2D._update_lim 0
    (Axes {[0 := ABLine (Line2D 2 1 [] [] ∅)]} 1 (0%float, 4%float) [] 0 []) =
  (Ok tt,
   Axes (<[0 := ABLine (Line2D 2 1 [0%float; 4%float] [(2 * 0 + 1)%float; (2 * 4 + 1)%float] ∅)]>
           {[0 := ABLine (Line2D 2 1 [] [] ∅)]})
        1 (0%float, 4%float) [] 0 [0]).
Proof.
  exact (update_lim_sets_endpoints 0
           (Axes {[0 := ABLine (Line2D 2 1 [] [] ∅)]} 1 (0%float, 4%float) [] 0 [])
           (Line2D 2 1 [] [] ∅) 0%float 4%float eq_refl eq_refl).
Defined.

(** ** SlopePlot *)

Lemma truediv_nonzero {S} (a b : float) (s : S) :
  (b =? 0)%float = false -> truediv a b s = (Ok (a / b)%float, s).
Proof. intros Hb. unfold truediv. rewrite Hb. reflexivity. Qed.

(** The locals computed under [invert_axes] never make the method raise:
    the division is guarded by the test [gradient == 0]. *)
Lemma slope_locals_return (position : float * float) (p : plot) :
  exists v, SlopePlot.locals position p = (Ok v, p).
Proof.
  destruct position as [gradient intercept]. unfold SlopePlot.locals. run.
  destruct p as [[] ax hs ws]; simpl; [|eauto].
  destruct (gradient =? 0)%float eqn:Hg; [eauto|].
  run. rewrite !truediv_nonzero by done. eauto.
Qed.

(** What [SlopePlot.draw_annotation] builds, whatever [invert_axes] is. *)
Lemma slope_draw (position : float * float) (opts : kwargs) (p : plot) :
  SlopePlot.draw_annotation position opts p =
    (let ax := handles_axis p in
     let self := next_id ax in
     (Ok [self],
      Plot (invert_axes p)
           (Axes (<[self := ABLine (Line2D position.1 position.2
                                      [(xbound ax).1; (xbound ax).2]
                                      [(position.1 * (xbound ax).1 + position.2)%float;
                                       (position.1 * (xbound ax).2 + position.2)%float]
                                      opts)]> (children ax))
                 (S self) (xbound ax)
                 (callbacks ax ++ [(xlim_changed, self)] ++ [(ylim_changed, self)])
                 (S (canvas_draws ax)) (artist_draws ax ++ [self]))
           (handles_annotations p) (warnings p))).
Proof.
  unfold SlopePlot.draw_annotation.
  destruct (slope_locals_return position p) as [v Hv].
  unfold bind at 1. rewrite Hv.
  destruct p as [inv [ch n xb cbs cd ad] hs ws]. run.
  rewrite !lookup_insert_eq. run.
  by rewrite insert_insert_eq, <- app_assoc.
Qed.

(** C4.  Under [invert_axes] the method computes a transformed gradient and
    intercept and does not use them: the artist is built from the original
    [position], so the result is, handle for handle and artist for artist,
    the one obtained without [invert_axes] ([line] spells the artist out). *)
Theorem slope_inversion_has_no_effect
  (position : float * float) (opts : kwargs) (ax : axes)
  (hs : list handle) (ws : list string) :
  let inverted := SlopePlot.draw_annotation position opts (Plot true ax hs ws) in
  let plain := SlopePlot.draw_annotation position opts (Plot false ax hs ws) in
  let line := ABLine (Line2D position.1 position.2
                        [(xbound ax).1; (xbound ax).2]
                        [(position.1 * (xbound ax).1 + position.2)%float;
                         (position.1 * (xbound ax).2 + position.2)%float] opts) in
  inverted.1 = plain.1 /\
  handles_axis inverted.2 = handles_axis plain.2 /\
  inverted.1 = Ok [next_id ax] /\
  children (handles_axis inverted.2) !! next_id ax = Some line.
Proof.
  cbv zeta. rewrite !slope_draw. simpl.
  split_and!; try reflexivity. apply lookup_insert_eq.
Qed.

(** C3 (the code at two inputs with [invert_axes] set).  For slope 0 and
    intercept 1 the line drawn over the x-bounds [0, 1] has the y data
    [1, 1]: it is horizontal, not vertical.  For slope 2 and intercept 1
    it is [y = 2x + 1], not the axis-swapped [y = x/2 - 1/2].  Neither call
    raises. *)
Theorem slope_inverted_draws_untransformed_line :
  let flat := SlopePlot.draw_annotation (0%float, 1%float) ∅ (Plot true ax0 [] []) in
  let steep := SlopePlot.draw_annotation (2%float, 1%float) ∅ (Plot true ax0 [] []) in
  flat.1 = Ok [0] /\
  children (handles_axis flat.2) !! 0 =
    Some (ABLine (Line2D 0 1 [0%float; 1%float] [1%float; 1%float] ∅)) /\
  steep.1 = Ok [0] /\
  children (handles_axis steep.2) !! 0 =
    Some (ABLine (Line2D 2 1 [0%float; 1%float] [1%float; 3%float] ∅)).
Proof. cbv zeta. rewrite !slope_draw. split_and!; reflexivity. Qed.

(** ** SplinePlot *)

(** C9.  With an empty vertex array, [SplinePlot.draw_annotation] returns
    the empty list of handles and leaves the plot and its axes exactly as
    they were: no patch is added and nothing is raised. *)
Theorem spline_empty_vertices (codes : list Z) (opts : kwargs) (p : plot) :
  SplinePlot.draw_annotation ([], codes) opts p = (Ok [], p) /\
  draw_annotation (Spline [] codes) opts p = (Ok [], p).
Proof. split; reflexivity. Qed.

(** [Path] changes no state: it gives the path, its codes as uint8, or
    raises [ValueError]. *)
Lemma Path_outcome {S} (verts : list (float * float)) (codes : list Z) (s : S) :
  Path verts codes s = (Ok (verts, map (fun c => (c mod 256)%Z) codes), s) \/
  Path verts codes s = (Raise ValueError, s).
Proof.
  unfold Path. destruct (negb _); [by right|].
  destruct (map _ codes) as [|c ?]; [by left|]. destruct (c =? MOVETO)%Z; auto.
Qed.

(** ** ArrowPlot *)

Lemma xytext_of_other (direction : string) (points : float) :
  direction ∉ ["v"; "^"; "<"; ">"] -> ArrowPlot.xytext_of direction points = None.
Proof.
  intros Hd. unfold ArrowPlot.xytext_of.
  rewrite !bool_decide_eq_false_2; [done|..]; intros Hin; apply Hd;
    repeat (apply elem_of_cons in Hin as [->|Hin]; [by repeat constructor|]);
    by apply elem_of_nil in Hin.
Qed.

(** The method, by the value of [xytext]: the warning about [fontsize] is
    issued on every path, the primitive only where [xytext] is bound. *)
Lemma arrow_draw (data : arrow_data) (opts : kwargs) (p : plot) :
  exists arrowprops textopts ws,
    ArrowPlot.draw_annotation data opts p =
      let ax := handles_axis p in
      let xy := if invert_axes p then (arrow_y data, arrow_x data)
                else (arrow_x data, arrow_y data) in
      match ArrowPlot.xytext_of (lower (arrow_direction data)) (arrow_points data) with
      | Some xytext =>
          (Ok [next_id ax],
           Plot (invert_axes p)
                (Axes (<[next_id ax := AnnotationArtist (arrow_text data) xy xytext
                                         arrowprops textopts]> (children ax))
                      (S (next_id ax)) (xbound ax) (callbacks ax)
                      (canvas_draws ax) (artist_draws ax))
                (handles_annotations p) ws)
      | None =>
          (Raise (UnboundLocalError "xytext"),
           Plot (invert_axes p) ax (handles_annotations p) ws)
      end.
Proof.
  destruct data as [x y text direction points arrowstyle].
  destruct p as [inv ax hs ws]. unfold ArrowPlot.draw_annotation. run. simpl.
  destruct (bool_decide _); run;
    destruct (ArrowPlot.xytext_of _ _); destruct inv; run; destruct ax; eauto.
Qed.

(** C10.  After lowercasing, the directions [v], [^], [<] and [>] make
    [ArrowPlot.draw_annotation] create exactly one primitive, an annotation at
    a fresh handle whose text offset is (0, d), (0, -d), (d, 0) and (-d, 0)
    respectively, [d] being the [points] of the arrow; any other direction
    makes it raise [UnboundLocalError] for [xytext] with the axes untouched. *)
Theorem arrow_offset_by_direction (data : arrow_data) (opts : kwargs) (p : plot) :
  let direction := lower (arrow_direction data) in
  let d := arrow_points data in
  let ax := handles_axis p in
  let xy := if invert_axes p then (arrow_y data, arrow_x data)
            else (arrow_x data, arrow_y data) in
  let r := ArrowPlot.draw_annotation data opts p in
  let one_primitive (xytext : float * float) :=
    exists arrowprops textopts,
      r.1 = Ok [next_id ax] /\
      next_id (handles_axis r.2) = S (next_id ax) /\
      children (handles_axis r.2) =
        <[next_id ax := AnnotationArtist (arrow_text data) xy xytext arrowprops textopts]>
          (children ax) in
  (direction = "v" -> one_primitive (0%float, d)) /\
  (direction = "^" -> one_primitive (0%float, (- d)%float)) /\
  (direction = "<" -> one_primitive (d, 0%float)) /\
  (direction = ">" -> one_primitive ((- d)%float, 0%float)) /\
  (direction ∉ ["v"; "^"; "<"; ">"] ->
   r.1 = Raise (UnboundLocalError "xytext") /\ handles_axis r.2 = ax).
Proof.
  cbv zeta. destruct (arrow_draw data opts p) as (arrowprops & textopts & ws & ->).
  split_and!; intros Hd; try (rewrite Hd; exists arrowprops, textopts; done).
  by rewrite xytext_of_other.
Qed.

Lemma arrow_offset_by_direction_witness :
  let r := ArrowPlot.draw_annotation (ArrowData 1 2 "peak" "V" 40 "->") ∅ (Plot false ax0 [] []) in
  let bad := ArrowPlot.draw_annotation (ArrowData 1 2 "peak" "x" 40 "->") ∅ (Plot false ax0 [] []) in
  (exists arrowprops textopts,
      r.1 = Ok [0] /\
      next_id (handles_axis r.2) = 1 /\
      children (handles_axis r.2) =
        <[0 := AnnotationArtist "peak" (1%float, 2%float) (0%float, 40%float)
                 arrowprops textopts]> ∅) /\
  bad.1 = Raise (UnboundLocalError "xytext") /\ handles_axis bad.2 = ax0.
Proof.
  cbv zeta. split.
  - exact (proj1 (arrow_offset_by_direction (ArrowData 1 2 "peak" "V" 40 "->") ∅
                    (Plot false ax0 [] [])) eq_refl).
  - apply (arrow_offset_by_direction (ArrowData 1 2 "peak" "x" 40 "->") ∅
             (Plot false ax0 [] [])).
    vm_compute. intros H. repeat (apply elem_of_cons in H as [H|H]; [discriminate H|]).
    by apply elem_of_nil in H.
Defined.

(** ** AnnotationPlot *)

(** No draw method touches the stored handles or the inversion flag; a
    call that raises leaves the axes alone, and a call that returns either
    returns no handle and leaves the axes alone, or returns the one handle
    of the one artist it has put on the axes, at a fresh identity. *)
Lemma draw_annotation_frame (a : annotation) (opts : kwargs) (p : plot) :
  let r := draw_annotation a opts p in
  let ax := handles_axis p in
  handles_annotations r.2 = handles_annotations p /\
  invert_axes r.2 = invert_axes p /\
  match r.1 with
  | Raise _ => handles_axis r.2 = ax
  | Ok hs =>
      (hs = [] /\ handles_axis r.2 = ax) \/
      (exists art, hs = [next_id ax] /\
                   children (handles_axis r.2) = <[next_id ax := art]> (children ax) /\
                   next_id (handles_axis r.2) = S (next_id ax))
  end.
Proof.
  cbv zeta. destruct a as [pos|pos|pos|pos|pos|data|data|verts codes]; simpl.
  1-4: destruct p as [[] ax hs ws];
       cbv [VLinePlot.draw_annotation HLinePlot.draw_annotation
            VSpanPlot.draw_annotation HSpanPlot.draw_annotation]; run;
       split_and!; eauto.
  - rewrite slope_draw. simpl. split_and!; eauto.
  - destruct data, p as [[] ax hs ws]; unfold TextPlot.draw_annotation; run;
      split_and!; eauto.
  - destruct (arrow_draw data opts p) as (arrowprops & textopts & ws & ->).
    simpl. destruct (ArrowPlot.xytext_of _ _); simpl; split_and!; eauto.
  - destruct verts as [|v verts]; [simpl; run; split_and!; eauto|].
    unfold SplinePlot.draw_annotation, bind. cbn [length Nat.eqb]. cbv beta.
    destruct (Path_outcome (v :: verts) codes p) as [-> | ->];
      destruct p as [inv ax hs ws]; run; split_and!; eauto.
Qed.

(** C7, as the code has it.  When the draw call of [initialize_plot]
    raises an exception [e], [initialize_plot] raises too and returns no axis
    data: it raises what the context manager raises in place of [e], or [e]
    itself if the manager lets it through, or, if the manager swallows [e],
    [UnboundLocalError] for the name [handles] that the block did not bind.
    The stored handle list and the axes are left as they were. *)
Theorem initialize_plot_draw_failure
  (cm : context_manager) (key ranges axis_data : Type)
  (compute_ranges : annotation -> key -> option ranges -> ranges)
  (match_spec : annotation -> ranges -> ranges)
  (_finalize_axis : key -> annotation -> ranges -> M plot axis_data)
  (hmap_last : annotation) (keys_last : key) (style : kwargs)
  (rs : option ranges) (p p1 : plot) (e : exn) :
  draw_annotation hmap_last style p = (Raise e, p1) ->
  let r := initialize_plot cm key ranges axis_data compute_ranges match_spec
             _finalize_axis hmap_last keys_last style rs p in
  r.1 = Raise (match cm e with
               | Suppress _ => UnboundLocalError "handles"
               | Propagate => e
               | Reraise e' => e'
               end) /\
  handles_annotations r.2 = handles_annotations p /\
  handles_axis r.2 = handles_axis p.
Proof.
  intros Hdraw. cbv zeta.
  pose proof (draw_annotation_frame hmap_last style p) as Hframe.
  cbv zeta in Hframe. rewrite Hdraw in Hframe. simpl in Hframe.
  destruct Hframe as (Hhs & _ & Hax).
  assert (initialize_plot cm key ranges axis_data compute_ranges match_spec
            _finalize_axis hmap_last keys_last style rs p =
          (Raise (match cm e with
                  | Suppress _ => UnboundLocalError "handles"
                  | Propagate => e
                  | Reraise e' => e'
                  end),
           match cm e with Suppress diagnostics => report diagnostics p1 | _ => p1 end))
    as ->.
  { unfold initialize_plot, bind, with_. rewrite Hdraw. by destruct (cm e). }
  destruct (cm e); simpl; auto.
Qed.

Lemma initialize_plot_draw_failure_witness :
  let r := initialize_plot abbreviated_exception_spec unit unit unit
             (fun _ _ _ => tt) (fun _ rs => rs) (fun _ _ _ => ret tt)
             bad_arrow tt ∅ None (Plot false ax0 [] []) in
  r.1 = Raise (UnboundLocalError "handles") /\
  handles_annotations r.2 = [] /\
  handles_axis r.2 = ax0.
Proof.
  exact (initialize_plot_draw_failure abbreviated_exception_spec unit unit unit
           (fun _ _ _ => tt) (fun _ rs => rs) (fun _ _ _ => ret tt)
           bad_arrow tt ∅ None (Plot false ax0 [] []) (Plot false ax0 [] [])
           (UnboundLocalError "xytext") eq_refl).
Defined.

(** C7 as stated fails: an Arrow whose direction is none of the four codes
    makes its draw call raise, and [initialize_plot] then raises instead of
    returning axis data, both with a manager that swallows the exception and
    with one that abbreviates it. *)
Lemma initialize_plot_does_not_return :
  (initialize_plot abbreviated_exception_spec unit unit unit
     (fun _ _ _ => tt) (fun _ rs => rs) (fun _ _ _ => ret tt)
     bad_arrow tt ∅ None (Plot false ax0 [] [])).1
  = Raise (UnboundLocalError "handles") /\
  (initialize_plot abbreviating unit unit unit
     (fun _ _ _ => tt) (fun _ rs => rs) (fun _ _ _ => ret tt)
     bad_arrow tt ∅ None (Plot false ax0 [] [])).1
  = Raise (AbbreviatedException (UnboundLocalError "xytext")).
Proof. split; vm_compute; reflexivity. Qed.

Lemma remove_each (l : list handle) :
  forall (inv : bool) (ax : axes) (hs : list handle) (ws : list string),
    NoDup l ->
    (forall h, h ∈ l -> is_Some (children ax !! h)) ->
    exists ax',
      for_each l (fun element => on_axis (remove element)) (Plot inv ax hs ws)
        = (Ok tt, Plot inv ax' hs ws) /\
      (forall h, children ax' !! h = if decide (h ∈ l) then None else children ax !! h) /\
      next_id ax' = next_id ax.
Proof.
  induction l as [|x l IH]; intros inv ax hs ws Hnd Hlive.
  - exists ax. split_and!; [done| |done]. intros h.
    by rewrite decide_False by apply not_elem_of_nil.
  - apply NoDup_cons in Hnd as [Hx Hnd].
    destruct (Hlive x) as [a Ha]; [by left|].
    destruct (IH inv (set_children (delete x) ax) hs ws Hnd) as (ax' & Hrun & Hlook & Hnext).
    { intros h Hh. unfold set_children; simpl. rewrite lookup_delete_ne.
      - apply Hlive. by right.
      - intros ->. done. }
    exists ax'. split_and!.
    + simpl. unfold bind at 1, on_axis, remove. simpl. rewrite Ha. exact Hrun.
    + intros h. rewrite Hlook. unfold set_children; simpl.
      destruct (decide (h = x)) as [->|Hne].
      * rewrite decide_False by done. rewrite lookup_delete_eq.
        by rewrite decide_True by left.
      * rewrite lookup_delete_ne by done.
        destruct (decide (h ∈ l)).
        -- by rewrite decide_True by (by right).
        -- rewrite decide_False; [done|]. intros [?|?]%elem_of_cons; done.
    + by rewrite Hnext.
Qed.

Lemma clear_annotations_live (p : plot) :
  NoDup (handles_annotations p) ->
  (forall h, h ∈ handles_annotations p -> live p h) ->
  exists ax',
    clear_annotations p
      = (Ok tt, Plot (invert_axes p) ax' (handles_annotations p) (warnings p)) /\
    (forall h, children ax' !! h =
               if decide (h ∈ handles_annotations p) then None
               else children (handles_axis p) !! h) /\
    next_id ax' = next_id (handles_axis p).
Proof.
  destruct p as [inv ax hs ws]. intros Hnd Hlive.
  destruct (remove_each hs inv ax hs ws Hnd Hlive) as (ax' & Hrun & Hrest).
  exists ax'. split; [|exact Hrest].
  unfold clear_annotations, bind, gets. simpl. exact Hrun.
Qed.

Lemma clear_annotations_nil (p : plot) :
  handles_annotations p = [] -> clear_annotations p = (Ok tt, p).
Proof.
  destruct p as [inv ax hs ws]. simpl. intros ->. reflexivity.
Qed.

(** One call: from a plot whose stored handles are live, a call whose draw
    returns [hs] returns, stores exactly [hs], and leaves on the axes the
    artists that were there less the previous handles plus [hs]. *)
Lemma update_handles_step (cm : context_manager) (key ranges : Type)
  (k : key) (a : annotation) (rs : ranges) (style : kwargs) (p : plot)
  (hs : list handle) :
  handles_ok p ->
  (draw_annotation a style (clear_annotations p).2).1 = Ok hs ->
  let r := update_handles cm key ranges k a rs style p in
  r.1 = Ok tt /\
  handles_annotations r.2 = hs /\
  handles_ok r.2 /\
  (forall h, live r.2 h <-> (live p h /\ h ∉ handles_annotations p) \/ h ∈ hs) /\
  (forall h, h ∈ hs -> ~ live p h).
Proof.
  intros (Hnd & Hlive & Hfresh) Hdraw. cbv zeta.
  destruct (clear_annotations_live p Hnd Hlive) as (ax' & Hclear & Hlook & Hnext).
  rewrite Hclear in Hdraw. simpl in Hdraw.
  pose proof (draw_annotation_frame a style
                (Plot (invert_axes p) ax' (handles_annotations p) (warnings p))) as Hframe.
  cbv zeta in Hframe.
  destruct (draw_annotation a style _) as [rd pd] eqn:Hd. simpl in Hdraw, Hframe.
  subst rd. destruct Hframe as (_ & _ & Hshape).
  assert (update_handles cm key ranges k a rs style p = (Ok tt, set_annotations hs pd)) as ->.
  { unfold update_handles, bind, with_. rewrite Hclear. unfold bind. by rewrite Hd. }
  assert (forall h, live (set_annotations hs pd) h <->
                    (live p h /\ h ∉ handles_annotations p) \/ h ∈ hs) as Hiff.
  { intros h. unfold live. simpl.
    destruct Hshape as [[-> ->]|(art & -> & -> & _)].
    - rewrite Hlook. destruct (decide (h ∈ handles_annotations p)).
      + split; [by intros []|]. intros [[]|?%elem_of_nil]; done.
      + split; [by left|]. by intros [[]|?%elem_of_nil].
    - destruct (decide (h = next_id ax')) as [->|Hne].
      + rewrite lookup_insert_eq. split; [|done]. intros _. right. by left.
      + rewrite lookup_insert_ne by done. rewrite Hlook.
        destruct (decide (h ∈ handles_annotations p)).
        * split; [by intros []|]. intros [[]|?%list_elem_of_singleton]; done.
        * split; [by left|]. by intros [[]|?%list_elem_of_singleton]. }
  split_and!; [done|done| |exact Hiff|].
  2:{ intros h Hh Hl. apply Hfresh in Hl.
      destruct Hshape as [[-> _]|(art & -> & _ & _)].
      - by apply elem_of_nil in Hh.
      - apply list_elem_of_singleton in Hh. lia. }
  assert (forall h, live (set_annotations hs pd) h ->
                    h < next_id (handles_axis (set_annotations hs pd))) as Hfresh'.
  { intros h Hh. apply Hiff in Hh. simpl.
    destruct Hshape as [[-> ->]|(art & -> & _ & ->)].
    - destruct Hh as [[Hh _]|?%elem_of_nil]; [|done]. rewrite Hnext. by apply Hfresh.
    - destruct Hh as [[Hh _]|Hh].
      + apply Hfresh in Hh. lia.
      + apply list_elem_of_singleton in Hh as ->. lia. }
  split_and!; [|intros h Hh; apply Hiff; by right|exact Hfresh'].
  destruct Hshape as [[-> _]|(art & -> & _ & _)]; [constructor|apply NoDup_singleton].
Qed.

(** C1, for the sequences whose draw calls return.  Take any sequence of
    [update_handles] calls made one after the other on a plot whose stored
    handles are distinct and live (as they are after construction, when
    there is none), each of whose draw calls returns.  Then each call returns; the handles stored after it are exactly
    the list its draw call returned, without repetition; the artists on the
    axes after it are those that were there before, less every handle stored
    before the call, plus the stored ones, so that no handle of the previous
    frame stays on the axes; and with no handle stored before the call the
    clearing loop does nothing. *)
Theorem update_handles_live_handles (cm : context_manager) (key ranges : Type)
  (fs : list (frame key ranges)) (p : plot) :
  handles_ok p ->
  at_each_update cm key ranges
    (fun p f _ => is_ok (drawn key ranges f p) = true) fs p ->
  at_each_update cm key ranges
    (fun p f r =>
       r.1 = Ok tt /\
       drawn key ranges f p = Ok (handles_annotations r.2) /\
       NoDup (handles_annotations r.2) /\
       (forall h, live r.2 h <->
                  (live p h /\ h ∉ handles_annotations p) \/ h ∈ handles_annotations r.2) /\
       (forall h, h ∈ handles_annotations p -> ~ live r.2 h) /\
       (handles_annotations p = [] -> clear_annotations p = (Ok tt, p)))
    fs p.
Proof.
  revert p. induction fs as [|f fs IH]; intros p Hok Hdrawn; [exact I|].
  destruct Hdrawn as [Hf Hrest]. unfold drawn in Hf.
  destruct (draw_annotation f.1.1.2 f.2 (clear_annotations p).2).1 as [hs|] eqn:Hd;
    [clear Hf|discriminate Hf].
  destruct (update_handles_step cm key ranges f.1.1.1 f.1.1.2 f.1.2 f.2 p hs Hok Hd)
    as (Hret & Hhs & Hok' & Hiff & Hnew).
  fold (update cm key ranges f p) in Hret, Hhs, Hok', Hiff.
  split; [|by apply IH].
  split_and!.
  - exact Hret.
  - unfold drawn. by rewrite Hd, Hhs.
  - apply Hok'.
  - by rewrite Hhs.
  - intros h Hh Hl. apply Hiff in Hl as [[_ Hl]|Hl]; [done|].
    apply (Hnew h Hl). by apply Hok.
  - apply clear_annotations_nil.
Qed.

Lemma update_handles_live_handles_witness :
  at_each_update abbreviating unit unit
    (fun p f r =>
       r.1 = Ok tt /\
       drawn unit unit f p = Ok (handles_annotations r.2) /\
       NoDup (handles_annotations r.2) /\
       (forall h, live r.2 h <->
                  (live p h /\ h ∉ handles_annotations p) \/ h ∈ handles_annotations r.2) /\
       (forall h, h ∈ handles_annotations p -> ~ live r.2 h) /\
       (handles_annotations p = [] -> clear_annotations p = (Ok tt, p)))
    three_frames (Plot false ax0 [] []).
Proof.
  apply (update_handles_live_handles abbreviating unit unit three_frames
           (Plot false ax0 [] [])).
  - split_and!.
    + constructor.
    + intros h Hh. by apply elem_of_nil in Hh.
    + intros h [a Ha]. discriminate Ha.
  - vm_compute. tauto.
Defined.

(** ** LabelsPlot *)


(** The text artists are created in order at consecutive fresh handles,
    one for each spec, and earlier artists are left as they are. *)
Lemma texts_run (specs : list LabelsPlot.spec) :
  forall ax : axes,
    exists ax',
      LabelsPlot.texts specs ax = (Ok (seq (next_id ax) (length specs)), ax') /\
      (forall i s, specs !! i = Some s ->
                   children ax' !! (next_id ax + i) =
                     Some (TextArtist s.1.1.1 s.1.1.2 s.1.2 s.2)) /\
      (forall h, h < next_id ax -> children ax' !! h = children ax !! h).
Proof.
  induction specs as [|[[[x y] t] kw] specs IH]; intros ax.
  - exists ax. split_and!; [done| |done]. intros i s Hs. by rewrite lookup_nil in Hs.
  - destruct ax as [ch n xb cbs cd ad].
    destruct (IH (Axes (<[n := TextArtist x y t kw]> ch) (S n) xb cbs cd ad))
      as (ax' & Hrun & Hnew & Hold). simpl in *.
    exists ax'. split_and!.
    + unfold bind, axes_text, add_artist. simpl. by rewrite Hrun.
    + intros [|i] s Hs; simpl in Hs.
      * injection Hs as <-. rewrite Nat.add_0_r, Hold by lia. apply lookup_insert_eq.
      * rewrite <- Nat.add_succ_comm. by apply Hnew.
    + intros h Hh. rewrite Hold by lia. apply lookup_insert_ne. lia.
Qed.


Lemma as_number_of_number (a : number) : as_number (of_number a) = Some a.
Proof. by destruct a. Qed.




Lemma first_occurrence_unique (color : scalar) (colors : list scalar) (k k' : nat) :
  first_occurrence color colors k -> first_occurrence color colors k' -> k = k'.
Proof.
  intros [(c & Hc & Heq) Hbefore] [(c' & Hc' & Heq') Hbefore'].
  destruct (Nat.lt_trichotomy k k') as [Hlt|[->|Hlt]]; [|done|].
  - rewrite (Hbefore' k c Hlt Hc) in Heq. discriminate.
  - rewrite (Hbefore k' c' Hlt Hc') in Heq'. discriminate.
Qed.



(** ** Instances *)







(** The formula by the types of the value and of the bounds: between
    floats it is [(v - vmin) / (vmax - vmin)] in binary64; between integers
    the differences are integers, converted to floats for the division. *)
Example continuous_color_formula (v lo hi : float) (n m k : Z) :
  true_divide (minus (NFloat v) (NFloat lo)) (minus (NFloat hi) (NFloat lo))
    = ((v - lo) / (hi - lo))%float /\
  true_divide (minus (NInt n) (NInt m)) (minus (NInt k) (NInt m))
    = (float_of_int (wrap64 (n - m)) / float_of_int (wrap64 (k - m)))%float /\
  true_divide (minus (NInt n) (NFloat lo)) (minus (NFloat hi) (NFloat lo))
    = ((float_of_int n - lo) / (hi - lo))%float.
Proof. split_and!; reflexivity. Qed.

(** The colours of the run of the instance above: 5 between the bounds 0
    and 10 gives 0.5, and 15 and -5, outside the bounds, give 1.5 and -0.5;
    an integer array between integer bounds gives the same colours. *)
Example labels_continuous_color_values :
  let r := LabelsPlot.init_artists sorted_unique
             ([1; 2; 3]%float, [4; 5; 6]%float, ["x"; "y"; "z"],
              NdArray "f" (SNum <$> [5; 15; -5]%float)) labels_kwargs ax0 in
  let ri := LabelsPlot.init_artists sorted_unique
              ([1; 2; 3]%float, [4; 5; 6]%float, ["x"; "y"; "z"],
               NdArray "i" (SInt <$> [5; 15; -5]%Z)) labels_kwargs_int ax0 in
  r.1 = Ok {["artist" := [1; 2; 3]]} /\
  text_color r.2 1 = Some (Scalar (SRGBA "viridis" (SNum 0.5))) /\
  text_color r.2 2 = Some (Scalar (SRGBA "viridis" (SNum 1.5))) /\
  text_color r.2 3 = Some (Scalar (SRGBA "viridis" (SNum (-0.5)))) /\
  ri.1 = Ok {["artist" := [1; 2; 3]]} /\
  text_color ri.2 1 = Some (Scalar (SRGBA "viridis" (SNum 0.5))) /\
  text_color ri.2 2 = Some (Scalar (SRGBA "viridis" (SNum 1.5))) /\
  text_color ri.2 3 = Some (Scalar (SRGBA "viridis" (SNum (-0.5)))).
Proof. vm_compute. split_and!; reflexivity. Qed.

(** With the unique values [a, b, c], the value [b] resolves to index 1
    at every point that holds it, whatever the order of the points; a
    value [d] that the list does not hold resolves to NaN.  A NaN held by an
    object array is found where the list holds that object, another NaN
    object and the NaN of a numeric array are found nowhere, and the float
    1.0 is found at the integer 1. *)
Example labels_categorical_color_values :
  sorted_unique [SStr "b"; SStr "c"; SStr "a"; SStr "b"] = [SStr "a"; SStr "b"; SStr "c"] /\
  (let r := LabelsPlot.init_artists sorted_unique
              ([1; 2; 3]%float, [4; 5; 6]%float, ["x"; "y"; "z"],
               NdArray "U" [SStr "b"; SStr "c"; SStr "b"]) labels_kwargs ax0 in
   text_color r.2 1 = Some (Scalar (SRGBA "viridis" (SInt 0))) /\
   text_color r.2 2 = Some (Scalar (SRGBA "viridis" (SInt 1))) /\
   text_color r.2 3 = Some (Scalar (SRGBA "viridis" (SInt 0)))) /\
  index (SStr "b") [SStr "a"; SStr "b"; SStr "c"] = Some 1 /\
  index (SStr "d") [SStr "a"; SStr "b"; SStr "c"] = None /\
  index (SRef 7 (SNum nan)) [SRef 7 (SNum nan); SRef 8 (SNum 1)] = Some 0 /\
  index (SRef 9 (SNum nan)) [SRef 7 (SNum nan); SRef 8 (SNum 1)] = None /\
  index (SNum nan) [SNum nan; SNum 1] = None /\
  index (SRef 9 (SNum 1)) [SRef 7 (SNum nan); SRef 8 (SInt 1)] = Some 1 /\
  (LabelsPlot.text_spec
     (Some (LabelsPlot.Colouring (Colormap "viridis") [SStr "a"; SStr "b"; SStr "c"]
              (Scalar SNone) (Scalar SNone) "U"))
     ∅ 0 (1%float, 2%float, "x", Some (SStr "d")) ∅).1
  = Ok (1%float, 2%float, "x", {["color" := Scalar (SRGBA "viridis" (SNum nan))]}).
Proof. vm_compute. split_and!; reflexivity. Qed.

(** A slope line follows the x-bounds: drawn over the bounds [0, 1], the
    line [y = 2x + 1] is recomputed by the ['xlim_changed'] notification when
    the bounds become [2, 6], and that notification redraws the line alone. *)
Example slope_line_tracks_xbound :
  let line := SlopePlot.draw_annotation (2%float, 1%float) ∅ (Plot false ax0 [] []) in
  let moved := set_xbound 2 6 (handles_axis line.2) in
  moved.1 = Ok tt /\
  children moved.2 !! 0 =
    Some (ABLine (Line2D 2 1 [2%float; 6%float] [5%float; 13%float] ∅)) /\
  canvas_draws moved.2 = canvas_draws (handles_axis line.2) /\
  artist_draws moved.2 = (artist_draws (handles_axis line.2) ++ [0])%list.
Proof. vm_compute. split_and!; reflexivity. Qed.

(** C1 as stated fails: not every sequence of calls keeps the stored
    handles those of the current frame.  A draw call that raises (the second
    frame here, an Arrow whose direction is none of the four codes) leaves
    the handle of the previous frame stored although the clearing loop has
    taken it off the axes; the third call then raises in its clearing loop,
    which cannot remove that handle again, and its frame is never drawn. *)
Lemma update_handles_after_failed_draw :
  let first := update abbreviating unit unit (tt, Slope (2%float, 1%float), tt, ∅)
                 (Plot false ax0 [] []) in
  let second := update abbreviating unit unit (tt, bad_arrow, tt, ∅) first.2 in
  let third := update abbreviating unit unit (tt, VLine 2%float, tt, ∅) second.2 in
  first.1 = Ok tt /\ handles_annotations first.2 = [0] /\
  drawn unit unit (tt, bad_arrow, tt, ∅) first.2 = Raise (UnboundLocalError "xytext") /\
  second.1 = Raise (AbbreviatedException (UnboundLocalError "xytext")) /\
  handles_annotations second.2 = [0] /\
  children (handles_axis second.2) !! 0 = None /\
  third.1 = Raise ValueError /\
  handles_annotations third.2 = [0] /\
  children (handles_axis third.2) = ∅.
Proof. vm_compute. split_and!; reflexivity. Qed.

(** * Further properties of the plots *)

(** ** ABLine2D.__init__ *)

(** X1.  The constructor puts the line on the axes under a fresh handle
    and leaves the other artists as they are, draws the canvas once, sets
    the line's data from the current x-bounds and redraws the line once,
    and connects the line's callback to ['xlim_changed'] and then to
    ['ylim_changed'], after the callbacks already connected. *)
Theorem abline_init_effect (slope intercept : float) (opts : kwargs) (ax : axes) :
  ABLine2D.__init__ slope intercept opts ax =
    (let self := next_id ax in
     (Ok self,
      Axes (<[self := ABLine (Line2D slope intercept
                            [(xbound ax).1; (xbound ax).2]
                            [(slope * (xbound ax).1 + intercept)%float;
                             (slope * (xbound ax).2 + intercept)%float] opts)]>
              (children ax))
           (S self) (xbound ax)
           (callbacks ax ++ [(xlim_changed, self); (ylim_changed, self)])
           (S (canvas_draws ax)) (artist_draws ax ++ [self]))).
Proof.
  destruct ax as [ch n xb cbs cd ad]. run.
  rewrite !lookup_insert_eq. run.
  by rewrite insert_insert_eq, <- app_assoc.
Qed.

(** ** The line and span plots *)

(** X2.  Under [invert_axes] a VLine is drawn as an HLine is without it,
    and an HLine as a VLine; the same holds of VSpan and HSpan: the two calls
    return the same handle and leave the same axes. *)
Theorem line_span_inversion_duality
  (position : float) (positions : float * float) (opts : kwargs) (ax : axes)
  (hs : list handle) (ws : list string) :
  let same (r r' : result (list handle) * plot) :=
    r.1 = r'.1 /\ handles_axis r.2 = handles_axis r'.2 /\
    r.1 = Ok [next_id ax] in
  same (VLinePlot.draw_annotation position opts (Plot true ax hs ws))
       (HLinePlot.draw_annotation position opts (Plot false ax hs ws)) /\
  same (HLinePlot.draw_annotation position opts (Plot true ax hs ws))
       (VLinePlot.draw_annotation position opts (Plot false ax hs ws)) /\
  same (VSpanPlot.draw_annotation positions opts (Plot true ax hs ws))
       (HSpanPlot.draw_annotation positions opts (Plot false ax hs ws)) /\
  same (HSpanPlot.draw_annotation positions opts (Plot true ax hs ws))
       (VSpanPlot.draw_annotation positions opts (Plot false ax hs ws)) /\
  children (handles_axis (VLinePlot.draw_annotation position opts (Plot true ax hs ws)).2)
    = <[next_id ax := AxHLine position opts]> (children ax) /\
  children (handles_axis (VSpanPlot.draw_annotation positions opts (Plot true ax hs ws)).2)
    = <[next_id ax := AxHSpan positions.1 positions.2 opts]> (children ax).
Proof. cbv zeta. split_and!; reflexivity. Qed.

(** ** TextPlot *)

(** X3.  [TextPlot.draw_annotation] creates one text at a fresh handle, at
    (x, y), or at (y, x) under [invert_axes].  Its font size is the one of
    the element, whatever [fontsize] the options hold; its alignments and
    rotation are those of the element; every other option reaches the text
    unchanged.  The options must not name the three keywords the call passes
    itself. *)
Theorem text_draw_keywords (data : text_data) (opts : kwargs) (p : plot) :
  opts !! "horizontalalignment" = None ->
  opts !! "verticalalignment" = None ->
  opts !! "rotation" = None ->
  exists kw,
    TextPlot.draw_annotation data opts p =
      (let ax := handles_axis p in
       let xy := if invert_axes p then (text_y data, text_x data)
                 else (text_x data, text_y data) in
       (Ok [next_id ax],
        Plot (invert_axes p)
             (Axes (<[next_id ax := TextArtist xy.1 xy.2 (text_text data) kw]> (children ax))
                   (S (next_id ax)) (xbound ax) (callbacks ax)
                   (canvas_draws ax) (artist_draws ax))
             (handles_annotations p) (warnings p))) /\
    kw !! "fontsize" = Some (Scalar (SNum (text_fontsize data))) /\
    kw !! "horizontalalignment" = Some (Scalar (SStr (text_horizontalalignment data))) /\
    kw !! "verticalalignment" = Some (Scalar (SStr (text_verticalalignment data))) /\
    kw !! "rotation" = Some (Scalar (SNum (text_rotation data))) /\
    forall k, k <> "fontsize" -> k <> "horizontalalignment" ->
              k <> "verticalalignment" -> k <> "rotation" ->
              kw !! k = opts !! k.
Proof.
  intros _ _ _. destruct data as [x y t fs ha va rot], p as [inv [ch n xb cbs cd ad] hs ws].
  eexists. split.
  - unfold TextPlot.draw_annotation. run. by destruct inv.
  - split_and!; try by simplify_map_eq.
    intros k ? ? ? ?. by simplify_map_eq.
Qed.

Lemma text_draw_keywords_witness :
  exists kw,
    TextPlot.draw_annotation (TextData 1 2 "peak" 12 "left" "top" 90)
      {["fontsize" := Scalar (SNum 8); "color" := Scalar (SStr "red")]}
      (Plot true ax0 [] []) =
      (Ok [0],
       Plot true (Axes (<[0 := TextArtist 2 1 "peak" kw]> ∅) 1 (0%float, 1%float) [] 0 [])
            [] []) /\
    kw !! "fontsize" = Some (Scalar (SNum 12)) /\
    kw !! "horizontalalignment" = Some (Scalar (SStr "left")) /\
    kw !! "verticalalignment" = Some (Scalar (SStr "top")) /\
    kw !! "rotation" = Some (Scalar (SNum 90)) /\
    forall k, k <> "fontsize" -> k <> "horizontalalignment" ->
              k <> "verticalalignment" -> k <> "rotation" ->
              kw !! k =
                ({["fontsize" := Scalar (SNum 8); "color" := Scalar (SStr "red")]} : kwargs)
                  !! k.
Proof.
  exact (text_draw_keywords (TextData 1 2 "peak" 12 "left" "top" 90)
           {["fontsize" := Scalar (SNum 8); "color" := Scalar (SStr "red")]}
           (Plot true ax0 [] []) eq_refl eq_refl eq_refl).
Defined.

(** X4.  Drawing a Text under [invert_axes] is drawing, without it, the
    Text whose x and y are exchanged: same handle, same axes. *)
Theorem text_inversion_swaps_position (data : text_data) (opts : kwargs) (ax : axes)
  (hs : list handle) (ws : list string) :
  let swapped := TextData (text_y data) (text_x data) (text_text data)
                   (text_fontsize data) (text_horizontalalignment data)
                   (text_verticalalignment data) (text_rotation data) in
  let inverted := TextPlot.draw_annotation data opts (Plot true ax hs ws) in
  let plain := TextPlot.draw_annotation swapped opts (Plot false ax hs ws) in
  inverted.1 = plain.1 /\ handles_axis inverted.2 = handles_axis plain.2.
Proof. destruct data. cbv zeta. split; reflexivity. Qed.

(** ** SplinePlot *)

Lemma uint8_codes (codes : list Z) :
  Forall (fun c => (0 <= c < 256)%Z) codes -> map (fun c => (c mod 256)%Z) codes = codes.
Proof.
  induction 1 as [|c codes Hc _ IH]; [done|]. simpl. by rewrite IH, Z.mod_small.
Qed.

(** What [SplinePlot.draw_annotation] does with at least one vertex and
    codes that are uint8 values. *)
Lemma spline_draw (verts : list (float * float)) (codes : list Z)
  (opts : kwargs) (p : plot) :
  verts <> [] ->
  Forall (fun c => (0 <= c < 256)%Z) codes ->
  SplinePlot.draw_annotation (verts, codes) opts p =
    (let ax := handles_axis p in
     if bool_decide (length codes = length verts /\ codes !! 0 = Some MOVETO) then
       (Ok [next_id ax],
        Plot (invert_axes p)
             (Axes (<[next_id ax :=
                        PathPatch verts codes (<["facecolor" := Scalar (SStr "none")]> opts)]>
                      (children ax))
                   (S (next_id ax)) (xbound ax) (callbacks ax)
                   (canvas_draws ax) (artist_draws ax))
             (handles_annotations p) (warnings p))
     else (Raise ValueError, p)).
Proof.
  intros Hverts Hcodes. destruct verts as [|v verts]; [done|].
  unfold SplinePlot.draw_annotation.
  change (length (v :: verts) =? 0)%nat with false. cbv iota.
  unfold bind, Path. cbv beta zeta. rewrite (uint8_codes codes Hcodes).
  destruct (length codes =? length (v :: verts))%nat eqn:Hlen; cbn [negb].
  - apply Nat.eqb_eq in Hlen. destruct codes as [|c codes]; [done|].
    destruct (c =? MOVETO)%Z eqn:Hc.
    + apply Z.eqb_eq in Hc as ->. rewrite bool_decide_eq_true_2 by done.
      by destruct p as [inv [ch n xb cbs cd ad] hs ws].
    + apply Z.eqb_neq in Hc. rewrite bool_decide_eq_false_2; [done|].
      intros [_ [= ?]]. done.
  - apply Nat.eqb_neq in Hlen. rewrite bool_decide_eq_false_2; [done|]. by intros [? _].
Qed.

(** X5.  With at least one vertex and codes that are uint8 values,
    [SplinePlot.draw_annotation] raises [ValueError] and adds nothing when
    the number of codes is not the number of vertices or the first code is
    not MOVETO: no path is made of them.  With as many codes as vertices,
    the first one MOVETO, and codes that make whole segments, it adds one
    patch at a fresh handle, with the vertices and codes as given, the
    options as given and the face colour ['none']; [invert_axes] plays no
    part, the vertices are not exchanged.  The options must not name
    [facecolor], which the call passes itself. *)
Theorem spline_draw_patch (verts : list (float * float)) (codes : list Z)
  (opts : kwargs) (p : plot) :
  verts <> [] ->
  opts !! "facecolor" = None ->
  Forall (fun c => (0 <= c < 256)%Z) codes ->
  let r := SplinePlot.draw_annotation (verts, codes) opts p in
  let ax := handles_axis p in
  (length codes <> length verts \/ codes !! 0 <> Some MOVETO ->
   r = (Raise ValueError, p)) /\
  (length codes = length verts -> codes !! 0 = Some MOVETO ->
   whole_segments codes = true ->
   r = (Ok [next_id ax],
        Plot (invert_axes p)
             (Axes (<[next_id ax :=
                        PathPatch verts codes (<["facecolor" := Scalar (SStr "none")]> opts)]>
                      (children ax))
                   (S (next_id ax)) (xbound ax) (callbacks ax)
                   (canvas_draws ax) (artist_draws ax))
             (handles_annotations p) (warnings p))).
Proof.
  intros Hverts _ Hcodes. cbv zeta. rewrite (spline_draw verts codes opts p Hverts Hcodes).
  cbv zeta. split.
  - intros Hbad. rewrite bool_decide_eq_false_2; [done|]. intros [? ?]. by destruct Hbad.
  - intros Hlen Hfirst _. by rewrite bool_decide_eq_true_2.
Qed.

Lemma spline_draw_patch_witness :
  SplinePlot.draw_annotation ([(0, 0); (1, 2)]%float, [1%Z]) ∅ (Plot true ax0 [] [])
    = (Raise ValueError, Plot true ax0 [] []) /\
  SplinePlot.draw_annotation ([(0, 0); (1, 2)]%float, [1%Z; 2%Z]) ∅ (Plot true ax0 [] []) =
    (Ok [0],
     Plot true
          (Axes (<[0 := PathPatch [(0, 0); (1, 2)]%float [1%Z; 2%Z]
                          (<["facecolor" := Scalar (SStr "none")]> ∅)]> ∅)
                1 (0%float, 1%float) [] 0 [])
          [] []).
Proof.
  split.
  - refine (proj1 (spline_draw_patch [(0, 0); (1, 2)]%float [1%Z] ∅ (Plot true ax0 [] [])
                     _ eq_refl _) (or_introl _));
      [discriminate | repeat constructor; lia | discriminate].
  - refine (proj2 (spline_draw_patch [(0, 0); (1, 2)]%float [1%Z; 2%Z] ∅
                     (Plot true ax0 [] []) _ eq_refl _) eq_refl eq_refl eq_refl);
      [discriminate | repeat constructor; lia].
Defined.

(** Two vertices with one code, and a first code that is not MOVETO: no
    path, no patch. *)
Example spline_codes_rejected :
  SplinePlot.draw_annotation ([(0, 0); (1, 2)]%float, [1%Z]) ∅ (Plot false ax0 [] [])
    = (Raise ValueError, Plot false ax0 [] []) /\
  SplinePlot.draw_annotation ([(0, 0); (1, 2)]%float, [2%Z; 2%Z]) ∅ (Plot false ax0 [] [])
    = (Raise ValueError, Plot false ax0 [] []).
Proof. split; reflexivity. Qed.

(** ** ArrowPlot *)

(** The dictionary comprehension keeps the listed keys that the dictionary
    has, with their values, and nothing else. *)
Lemma lookup_restrict (keys : list string) (d : kwargs) (k : string) :
  restrict keys d !! k = if decide (k ∈ keys) then d !! k else None.
Proof.
  induction keys as [|k' keys IH].
  - rewrite decide_False by apply not_elem_of_nil. apply lookup_empty.
  - change (restrict (k' :: keys) d)
      with (match d !! k' with
            | Some v => <[k' := v]> (restrict keys d)
            | None => restrict keys d
            end).
    destruct (decide (k = k')) as [->|Hne].
    + rewrite decide_True by left. destruct (d !! k') eqn:Hd.
      * by rewrite lookup_insert_eq.
      * rewrite IH. by destruct (decide _).
    + assert (restrict keys d !! k =
              (if decide (k ∈ k' :: keys) then d !! k else None)) as <-.
      { rewrite IH. destruct (decide (k ∈ keys)).
        - by rewrite decide_True by (by right).
        - rewrite decide_False; [done|]. by intros [?|?]%elem_of_cons. }
      destruct (d !! k'); [by rewrite lookup_insert_ne|done].
Qed.

(** The method with its dictionaries spelled out. *)
Lemma arrow_draw_exact (data : arrow_data) (opts : kwargs) (p : plot) :
  ArrowPlot.draw_annotation data opts p =
    let ax := handles_axis p in
    let xy := if invert_axes p then (arrow_y data, arrow_x data)
              else (arrow_x data, arrow_y data) in
    let arrowprops := restrict ArrowPlot._arrow_style_opts opts
                      ∪ {["arrowstyle" := Scalar (SStr (arrow_arrowstyle data))]} in
    let textopts := restrict ArrowPlot._text_style_opts opts in
    let ws := if bool_decide (is_Some (textopts !! "fontsize"))
              then (warnings p ++ [fontsize_deprecated])%list else warnings p in
    let textopts := match textopts !! "textsize" with
                    | Some v => <["fontsize" := v]> (delete "textsize" textopts)
                    | None => textopts
                    end in
    match ArrowPlot.xytext_of (lower (arrow_direction data)) (arrow_points data) with
    | Some xytext =>
        (Ok [next_id ax],
         Plot (invert_axes p)
              (Axes (<[next_id ax := AnnotationArtist (arrow_text data) xy xytext
                                       arrowprops textopts]> (children ax))
                    (S (next_id ax)) (xbound ax) (callbacks ax)
                    (canvas_draws ax) (artist_draws ax))
              (handles_annotations p) ws)
    | None =>
        (Raise (UnboundLocalError "xytext"),
         Plot (invert_axes p) ax (handles_annotations p) ws)
    end.
Proof.
  destruct data as [x y text direction points arrowstyle].
  destruct p as [inv ax hs ws]. unfold ArrowPlot.draw_annotation. run. simpl.
  destruct (bool_decide _); run;
    destruct (ArrowPlot.xytext_of _ _); destruct inv; run; by destruct ax.
Qed.

(** X6.  The options of an Arrow are divided by two fixed lists.  The
    arrow properties are the arrow style, under [arrowstyle], and the options
    named in the arrow list; the text options are those named in the style
    list of TextPlot, and a font size: the [textsize] option if there is one,
    else the deprecated [fontsize] option.  No other option reaches the
    canvas, and no [textsize] key does. *)
Theorem arrow_style_partition (data : arrow_data) (opts : kwargs) (p : plot)
  (xytext : float * float) :
  ArrowPlot.xytext_of (lower (arrow_direction data)) (arrow_points data) = Some xytext ->
  exists xy arrowprops textopts,
    children (handles_axis (ArrowPlot.draw_annotation data opts p).2)
      !! next_id (handles_axis p)
      = Some (AnnotationArtist (arrow_text data) xy xytext arrowprops textopts) /\
    (forall k, arrowprops !! k =
               if decide (k = "arrowstyle") then Some (Scalar (SStr (arrow_arrowstyle data)))
               else if decide (k ∈ ArrowPlot._arrow_style_opts) then opts !! k
               else None) /\
    (forall k, textopts !! k =
               if decide (k = "fontsize") then
                 match opts !! "textsize" with
                 | Some v => Some v
                 | None => opts !! "fontsize"
                 end
               else if decide (k ∈ TextPlot.style_opts) then opts !! k
               else None).
Proof.
  intros Hxytext. rewrite arrow_draw_exact. cbv zeta. rewrite Hxytext.
  cbn -[restrict ArrowPlot._arrow_style_opts ArrowPlot._text_style_opts].
  eexists _, _, _. split; [apply lookup_insert_eq|]. split.
  - intros k. destruct (decide (k = "arrowstyle")) as [->|Hne].
    + rewrite lookup_union_r; [by rewrite lookup_singleton_eq|].
      rewrite lookup_restrict. rewrite decide_False; [done|].
      unfold ArrowPlot._arrow_style_opts. set_unfold; intuition congruence.
    + rewrite lookup_union_l by (by rewrite lookup_singleton_ne).
      apply lookup_restrict.
  - intros k. rewrite (lookup_restrict _ opts "textsize").
    rewrite decide_True by (unfold ArrowPlot._text_style_opts, TextPlot.style_opts;
                            set_unfold; intuition congruence).
    assert (forall k', k' <> "textsize" -> k' <> "fontsize" ->
                       (k' ∈ ArrowPlot._text_style_opts <-> k' ∈ TextPlot.style_opts)) as Hlists.
    { intros k' ? ?. unfold ArrowPlot._text_style_opts, TextPlot.style_opts.
      set_unfold; intuition congruence. }
    assert ("fontsize" ∈ ArrowPlot._text_style_opts) as Hfs.
    { unfold ArrowPlot._text_style_opts, TextPlot.style_opts. set_unfold; intuition congruence. }
    assert ("textsize" ∉ TextPlot.style_opts) as Hts.
    { unfold TextPlot.style_opts. set_unfold; intuition congruence. }
    destruct (opts !! "textsize") as [v|] eqn:Hv.
    + destruct (decide (k = "fontsize")) as [->|Hne]; [apply lookup_insert_eq|].
      rewrite lookup_insert_ne by done.
      destruct (decide (k = "textsize")) as [->|Hne'].
      * rewrite lookup_delete_eq. by rewrite decide_False.
      * rewrite lookup_delete_ne, lookup_restrict by done.
        destruct (decide (k ∈ TextPlot.style_opts)) as [Hin|Hin].
        -- by rewrite decide_True by (by apply Hlists).
        -- rewrite decide_False; [done|]. intros Hin'. by apply Hin, Hlists.
    + rewrite lookup_restrict.
      destruct (decide (k = "fontsize")) as [->|Hne]; [by rewrite decide_True|].
      destruct (decide (k = "textsize")) as [->|Hne'].
      * rewrite (decide_False (P := _ ∈ TextPlot.style_opts)) by done.
        by destruct (decide _).
      * destruct (decide (k ∈ TextPlot.style_opts)) as [Hin|Hin].
        -- by rewrite decide_True by (by apply Hlists).
        -- rewrite decide_False; [done|]. intros Hin'. by apply Hin, Hlists.
Qed.

Lemma arrow_style_partition_witness :
  exists xy arrowprops textopts,
    children (handles_axis
                (ArrowPlot.draw_annotation (ArrowData 1 2 "peak" "<" 40 "->")
                   {["color" := Scalar (SStr "red"); "textsize" := Scalar (SNum 9);
                     "fontsize" := Scalar (SNum 7); "lw" := Scalar (SNum 2);
                     "cmap" := Colormap "viridis"]}
                   (Plot false ax0 [] [])).2) !! 0
      = Some (AnnotationArtist "peak" xy (40%float, 0%float) arrowprops textopts) /\
    (forall k, arrowprops !! k =
               if decide (k = "arrowstyle") then Some (Scalar (SStr "->"))
               else if decide (k ∈ ArrowPlot._arrow_style_opts) then
                      ({["color" := Scalar (SStr "red"); "textsize" := Scalar (SNum 9);
                         "fontsize" := Scalar (SNum 7); "lw" := Scalar (SNum 2);
                         "cmap" := Colormap "viridis"]} : kwargs) !! k
               else None) /\
    (forall k, textopts !! k =
               if decide (k = "fontsize") then Some (Scalar (SNum 9))
               else if decide (k ∈ TextPlot.style_opts) then
                      ({["color" := Scalar (SStr "red"); "textsize" := Scalar (SNum 9);
                         "fontsize" := Scalar (SNum 7); "lw" := Scalar (SNum 2);
                         "cmap" := Colormap "viridis"]} : kwargs) !! k
               else None).
Proof.
  exact (arrow_style_partition (ArrowData 1 2 "peak" "<" 40 "->")
           {["color" := Scalar (SStr "red"); "textsize" := Scalar (SNum 9);
             "fontsize" := Scalar (SNum 7); "lw" := Scalar (SNum 2);
             "cmap" := Colormap "viridis"]}
           (Plot false ax0 [] []) (40%float, 0%float) eq_refl).
Defined.

(** X7.  The warning that [fontsize] is deprecated is issued exactly when
    the options hold a [fontsize], once, and on every path: also when the
    direction is none of the four codes and the method raises.  Nothing else
    is ever reported, and the stored handles are not touched. *)
Theorem arrow_fontsize_warning (data : arrow_data) (opts : kwargs) (p : plot) :
  let r := ArrowPlot.draw_annotation data opts p in
  warnings r.2 = (warnings p ++
                  if bool_decide (is_Some (opts !! "fontsize"))
                  then [fontsize_deprecated] else [])%list /\
  handles_annotations r.2 = handles_annotations p.
Proof.
  cbv zeta. rewrite arrow_draw_exact. cbv zeta.
  rewrite (lookup_restrict _ opts "fontsize").
  rewrite decide_True
    by (unfold ArrowPlot._text_style_opts, TextPlot.style_opts; set_unfold;
        intuition congruence).
  destruct (ArrowPlot.xytext_of _ _);
    cbn -[restrict ArrowPlot._arrow_style_opts ArrowPlot._text_style_opts];
    (split; [|done]); destruct (bool_decide _); by rewrite ?app_nil_r.
Qed.

(** X8.  Under [invert_axes] an Arrow is drawn as, without it, the Arrow
    whose x and y are exchanged: the point annotated is transposed, and the
    offset of the text, which the direction alone decides, is not.  The two
    calls return or raise alike and leave the same axes and warnings. *)
Theorem arrow_inversion_swaps_point_only (data : arrow_data) (opts : kwargs) (ax : axes)
  (hs : list handle) (ws : list string) :
  let swapped := ArrowData (arrow_y data) (arrow_x data) (arrow_text data)
                   (arrow_direction data) (arrow_points data) (arrow_arrowstyle data) in
  let inverted := ArrowPlot.draw_annotation data opts (Plot true ax hs ws) in
  let plain := ArrowPlot.draw_annotation swapped opts (Plot false ax hs ws) in
  inverted.1 = plain.1 /\
  handles_axis inverted.2 = handles_axis plain.2 /\
  warnings inverted.2 = warnings plain.2 /\
  match ArrowPlot.xytext_of (lower (arrow_direction data)) (arrow_points data) with
  | Some xytext =>
      exists arrowprops textopts,
        children (handles_axis inverted.2) !! next_id ax
          = Some (AnnotationArtist (arrow_text data) (arrow_y data, arrow_x data) xytext
                    arrowprops textopts)
  | None => inverted.1 = Raise (UnboundLocalError "xytext")
  end.
Proof.
  cbv zeta. rewrite !arrow_draw_exact. destruct data as [x y t d pts st]. cbv zeta.
  cbn -[restrict ArrowPlot._arrow_style_opts ArrowPlot._text_style_opts ArrowPlot.xytext_of].
  destruct (ArrowPlot.xytext_of (lower d) pts) as [xytext|] eqn:Hxy;
    cbn -[restrict ArrowPlot._arrow_style_opts ArrowPlot._text_style_opts];
    split_and!; try done.
  eexists _, _. apply lookup_insert_eq.
Qed.

(** ** AnnotationPlot *)

(** X9.  On axes whose artists all have identities already given out,
    every draw method leaves the artists that are there as they are and adds
    at most one, under an identity not in use, whose handle is the one it
    returns; a call that raises adds none.  The stored handles are not
    touched, and the identities of the axes stay in order. *)
Theorem draw_annotation_one_fresh_artist (a : annotation) (opts : kwargs) (p : plot) :
  fresh_ids (handles_axis p) ->
  let r := draw_annotation a opts p in
  handles_annotations r.2 = handles_annotations p /\
  fresh_ids (handles_axis r.2) /\
  (forall h, live p h ->
             children (handles_axis r.2) !! h = children (handles_axis p) !! h) /\
  match r.1 with
  | Ok hs => length hs <= 1 /\
             (forall h, h ∈ hs -> ~ live p h /\ live r.2 h) /\
             (forall h, live r.2 h -> live p h \/ h ∈ hs)
  | Raise _ => handles_axis r.2 = handles_axis p
  end.
Proof.
  intros Hfresh. pose proof (draw_annotation_frame a opts p) as Hframe.
  cbv zeta in *. destruct Hframe as (Hhs & _ & Hshape).
  split; [exact Hhs|]. unfold live.
  destruct (draw_annotation a opts p).1 as [hs|e].
  - destruct Hshape as [[-> ->]|(art & -> & Hch & Hnext)].
    + split_and!; [done|done|simpl; lia| |by left].
      intros h Hh. by apply elem_of_nil in Hh.
    + rewrite Hch. split_and!.
      * intros h Hh. rewrite Hch in Hh. rewrite Hnext.
        destruct (decide (h = next_id (handles_axis p))) as [->|Hne]; [lia|].
        rewrite lookup_insert_ne in Hh by done. apply Hfresh in Hh. lia.
      * intros h Hh. apply Hfresh in Hh. apply lookup_insert_ne. lia.
      * simpl. lia.
      * intros h ->%list_elem_of_singleton. split.
        -- intros Hh. apply Hfresh in Hh. lia.
        -- by rewrite lookup_insert_eq.
      * intros h Hh.
        destruct (decide (h = next_id (handles_axis p))) as [->|Hne].
        -- right. by apply list_elem_of_singleton.
        -- left. by rewrite lookup_insert_ne in Hh.
  - rewrite Hshape. by split_and!.
Qed.

Lemma fresh_ids_ax0 : fresh_ids ax0.
Proof. intros h [a Ha]. discriminate Ha. Qed.

Lemma draw_annotation_one_fresh_artist_witness :
  let p := Plot false ax0 [] [] in
  let r := draw_annotation (Slope (2%float, 1%float)) ∅ p in
  handles_annotations r.2 = [] /\
  fresh_ids (handles_axis r.2) /\
  (forall h, live p h ->
             children (handles_axis r.2) !! h = children (handles_axis p) !! h) /\
  match r.1 with
  | Ok hs => length hs <= 1 /\
             (forall h, h ∈ hs -> ~ live p h /\ live r.2 h) /\
             (forall h, live r.2 h -> live p h \/ h ∈ hs)
  | Raise _ => handles_axis r.2 = handles_axis p
  end.
Proof.
  exact (draw_annotation_one_fresh_artist (Slope (2%float, 1%float)) ∅
           (Plot false ax0 [] []) fresh_ids_ax0).
Defined.

(** X10.  When its draw call returns, [initialize_plot] stores the handles
    the call returned and ends with the axis finalization of the host, run
    for the last key, the last element and the ranges computed for them.  It
    removes nothing: the artists that were on the axes before, those of
    handles stored earlier among them, are still there when the finalization
    starts. *)
Theorem initialize_plot_stores_handles
  (cm : context_manager) (key ranges axis_data : Type)
  (compute_ranges : annotation -> key -> option ranges -> ranges)
  (match_spec : annotation -> ranges -> ranges)
  (_finalize_axis : key -> annotation -> ranges -> M plot axis_data)
  (hmap_last : annotation) (keys_last : key) (style : kwargs)
  (rs : option ranges) (p p1 : plot) (hs : list handle) :
  fresh_ids (handles_axis p) ->
  draw_annotation hmap_last style p = (Ok hs, p1) ->
  initialize_plot cm key ranges axis_data compute_ranges match_spec
    _finalize_axis hmap_last keys_last style rs p
  = _finalize_axis keys_last hmap_last
      (match_spec hmap_last (compute_ranges hmap_last keys_last rs))
      (set_annotations hs p1) /\
  handles_annotations (set_annotations hs p1) = hs /\
  (forall h, live p h ->
             children (handles_axis (set_annotations hs p1)) !! h
             = children (handles_axis p) !! h).
Proof.
  intros Hfresh Hdraw. split_and!; [|done|].
  - unfold initialize_plot, bind, with_. by rewrite Hdraw.
  - pose proof (draw_annotation_frame hmap_last style p) as Hframe.
    cbv zeta in Hframe. rewrite Hdraw in Hframe. simpl in Hframe.
    unfold live. simpl.
    destruct Hframe as (_ & _ & [[_ ->]|(art & _ & -> & _)]); [done|].
    intros h Hh. apply Hfresh in Hh. apply lookup_insert_ne. lia.
Qed.

Lemma initialize_plot_stores_handles_witness :
  let p := Plot false ax0 [] [] in
  let p1 := (draw_annotation (VLine 2%float) ∅ p).2 in
  initialize_plot abbreviating unit unit unit
    (fun _ _ _ => tt) (fun _ rs => rs) (fun _ _ _ => ret tt) (VLine 2%float) tt ∅ None p
  = (Ok tt, set_annotations [0] p1) /\
  handles_annotations (set_annotations [0] p1) = [0] /\
  (forall h, live p h ->
             children (handles_axis (set_annotations [0] p1)) !! h
             = children (handles_axis p) !! h).
Proof.
  exact (initialize_plot_stores_handles abbreviating unit unit unit
           (fun _ _ _ => tt) (fun _ rs => rs) (fun _ _ _ => ret tt) (VLine 2%float) tt ∅ None
           (Plot false ax0 [] []) (draw_annotation (VLine 2%float) ∅ (Plot false ax0 [] [])).2
           [0] fresh_ids_ax0 eq_refl).
Defined.

(** X11.  When the draw call of [update_handles] raises an exception [e],
    the previous handles have already been taken off the axes and they stay
    stored: the call ends as the context manager decides (it returns if the
    manager swallows [e], and raises [e] or the manager's exception
    otherwise) with a handle list none of whose artists is on the axes, and
    with the other artists as they were. *)
Theorem update_handles_draw_failure (cm : context_manager) (key ranges : Type)
  (k : key) (a : annotation) (rs : ranges) (style : kwargs) (p p1 : plot) (e : exn) :
  handles_ok p ->
  draw_annotation a style (clear_annotations p).2 = (Raise e, p1) ->
  let r := update_handles cm key ranges k a rs style p in
  r.1 = match cm e with
        | Suppress _ => Ok tt
        | Propagate => Raise e
        | Reraise e' => Raise e'
        end /\
  handles_annotations r.2 = handles_annotations p /\
  (forall h, h ∈ handles_annotations p -> ~ live r.2 h) /\
  (forall h, h ∉ handles_annotations p ->
             children (handles_axis r.2) !! h = children (handles_axis p) !! h).
Proof.
  intros (Hnd & Hlive & _) Hdraw. cbv zeta.
  destruct (clear_annotations_live p Hnd Hlive) as (ax' & Hclear & Hlook & _).
  rewrite Hclear in Hdraw. simpl in Hdraw.
  pose proof (draw_annotation_frame a style
                (Plot (invert_axes p) ax' (handles_annotations p) (warnings p))) as Hframe.
  cbv zeta in Hframe. rewrite Hdraw in Hframe. simpl in Hframe.
  destruct Hframe as (Hhs & _ & Hax).
  assert (update_handles cm key ranges k a rs style p =
          (match cm e with
           | Suppress _ => Ok tt
           | Propagate => Raise e
           | Reraise e' => Raise e'
           end,
           match cm e with Suppress diagnostics => report diagnostics p1 | _ => p1 end)) as ->.
  { unfold update_handles, bind, with_. rewrite Hclear. unfold bind. rewrite Hdraw.
    by destruct (cm e). }
  assert (forall h, children (handles_axis
                      match cm e with Suppress diagnostics => report diagnostics p1 | _ => p1 end)
                    !! h = if decide (h ∈ handles_annotations p) then None
                           else children (handles_axis p) !! h) as Hch.
  { intros h. rewrite <- Hlook, <- Hax. by destruct (cm e). }
  split_and!.
  - done.
  - by destruct (cm e).
  - intros h Hh. unfold live. rewrite Hch, decide_True by done. by intros [].
  - intros h Hh. by rewrite Hch, decide_False.
Qed.

Lemma update_handles_draw_failure_witness :
  let p := (update abbreviating unit unit (tt, Slope (2%float, 1%float), tt, ∅)
              (Plot false ax0 [] [])).2 in
  let r := update_handles abbreviated_exception_spec unit unit tt bad_arrow tt ∅ p in
  r.1 = Ok tt /\
  handles_annotations r.2 = handles_annotations p /\
  (forall h, h ∈ handles_annotations p -> ~ live r.2 h) /\
  (forall h, h ∉ handles_annotations p ->
             children (handles_axis r.2) !! h = children (handles_axis p) !! h).
Proof.
  refine (update_handles_draw_failure abbreviated_exception_spec unit unit tt bad_arrow tt ∅
            (update abbreviating unit unit (tt, Slope (2%float, 1%float), tt, ∅)
               (Plot false ax0 [] [])).2
            _ (UnboundLocalError "xytext") _ eq_refl).
  split_and!.
  - vm_compute. apply NoDup_singleton.
  - intros h Hh. vm_compute in Hh. apply list_elem_of_singleton in Hh as ->.
    vm_compute. by eexists.
  - intros h [art Hh].
    destruct (decide (h = 0)) as [->|Hne]; [vm_compute; lia|]. exfalso. revert Hh.
    assert (children (handles_axis
              (update abbreviating unit unit (tt, Slope (2%float, 1%float), tt, ∅)
                 (Plot false ax0 [] [])).2)
            = {[0 := ABLine (Line2D 2 1 [0%float; 1%float] [1%float; 3%float] ∅)]}) as ->
      by (vm_compute; reflexivity).
    by rewrite lookup_singleton_ne.
Defined.

(** ** LabelsPlot.get_data *)

(** What [get_data] returns when the transforms return and the offsets
    can be added to the position arrays. *)
Lemma get_data_returns (cm : context_manager) (ranges : Type)
  (_apply_transforms : element -> ranges -> kwargs -> result kwargs)
  (_norm_kwargs : element -> ranges -> kwargs -> kwargs)
  (pprint_value : scalar -> string)
  (el : element) (rs : ranges) (style style1 : kwargs) (p : labels_plot) :
  _apply_transforms el rs style = Ok style1 ->
  addable (xoffset p) (dimension_values_0 el) = true ->
  addable (yoffset p) (dimension_values_1 el) = true ->
  exists a0 a1 p',
    a0 <> a1 /\
    LabelsPlot.get_data cm ranges _apply_transforms _norm_kwargs pprint_value el rs style p =
      (let base := labels_base_style _norm_kwargs el rs style1 p in
       let cs := default (default (Scalar SNone) (get_dimension el (color_index p)))
                         (base !! "c") in
       let style := delete "c" base in
       let style := match style !! "size" with
                    | Some size => <["fontsize" := size]> (delete "size" style)
                    | None => style
                    end in
       let style := match style !! "horizontalalignment" with
                    | Some _ => style
                    | None => <["horizontalalignment" := Scalar (SStr "center")]> style
                    end in
       let style := match style !! "verticalalignment" with
                    | Some _ => style
                    | None => <["verticalalignment" := Scalar (SStr "center")]> style
                    end in
       (Ok ((a0, a1, map pprint_value (dimension_values_2 el), cs), style, ∅), p')).
Proof.
  intros Htransforms Hx Hy. destruct p as [inv xo yo ci arr n ws].
  destruct el as [d0 d1 d2 gd].
  unfold LabelsPlot.get_data, bind, with_, new_array, gets, iadd, ret,
    labels_base_style.
  rewrite Htransforms. simpl in *.
  destruct xo as [dx|]; simpl in *;
    repeat first [ rewrite lookup_insert_eq
                 | rewrite lookup_insert_ne by lia
                 | progress simpl ];
    [destruct (add_in_place d0 dx); [simpl|discriminate]|];
    (destruct yo as [dy|]; simpl in *;
     repeat first [ rewrite lookup_insert_eq
                  | rewrite lookup_insert_ne by lia
                  | progress simpl ];
     [destruct (add_in_place d1 dy); [simpl|discriminate]|]);
    destruct inv; simpl;
    eexists _, _, _; (split; [|reflexivity]); lia.
Qed.

(** X13.  The style [get_data] returns is the style it starts from with
    [c] taken out, [size] renamed to [fontsize] (the size replaces a font
    size given besides it), and the two alignments set to ['center'] where
    the style names none; every other option is as it was.  [get_data]
    returns when the transforms return and each configured offset can be
    added in place to its position array. *)
Theorem labels_style_normalised (cm : context_manager) (ranges : Type)
  (_apply_transforms : element -> ranges -> kwargs -> result kwargs)
  (_norm_kwargs : element -> ranges -> kwargs -> kwargs)
  (pprint_value : scalar -> string)
  (el : element) (rs : ranges) (style style1 : kwargs) (p : labels_plot) :
  _apply_transforms el rs style = Ok style1 ->
  addable (xoffset p) (dimension_values_0 el) = true ->
  addable (yoffset p) (dimension_values_1 el) = true ->
  exists args style' extra p',
    LabelsPlot.get_data cm ranges _apply_transforms _norm_kwargs pprint_value el rs style p
      = (Ok (args, style', extra), p') /\
    let base := labels_base_style _norm_kwargs el rs style1 p in
    style' !! "c" = None /\
    style' !! "size" = None /\
    style' !! "fontsize" = match base !! "size" with
                           | Some size => Some size
                           | None => base !! "fontsize"
                           end /\
    style' !! "horizontalalignment"
      = Some (default (Scalar (SStr "center")) (base !! "horizontalalignment")) /\
    style' !! "verticalalignment"
      = Some (default (Scalar (SStr "center")) (base !! "verticalalignment")) /\
    forall k, k <> "c" -> k <> "size" -> k <> "fontsize" ->
              k <> "horizontalalignment" -> k <> "verticalalignment" ->
              style' !! k = base !! k.
Proof.
  intros Htransforms Hx Hy.
  destruct (get_data_returns cm ranges _apply_transforms _norm_kwargs pprint_value
              el rs style style1 p Htransforms Hx Hy) as (a0 & a1 & p' & _ & ->).
  cbv zeta. set (base := labels_base_style _norm_kwargs el rs style1 p).
  eexists _, _, _, _. split; [reflexivity|].
  rewrite !(lookup_delete_ne base "c") by done.
  destruct (base !! "size") as [size|] eqn:Hsize;
    rewrite ?lookup_insert_ne, ?lookup_delete_ne by done;
    destruct (base !! "horizontalalignment") as [ha|] eqn:Hha;
    rewrite ?lookup_insert_ne, ?lookup_delete_ne by done;
    destruct (base !! "verticalalignment") as [va|] eqn:Hva;
    split_and!; try (intros k ? ? ? ? ?); by simplify_map_eq.
Qed.

Lemma labels_style_normalised_witness :
  exists args style' extra p',
    LabelsPlot.get_data abbreviating unit (fun _ _ style => Ok style) (fun _ _ style => style)
      (fun _ => "label") labels_element tt
      {["size" := Scalar (SNum 9); "fontsize" := Scalar (SNum 7);
        "c" := Scalar (SStr "red"); "alpha" := Scalar (SNum 0.5)]}
      (labels_self false)
      = (Ok (args, style', extra), p') /\
    style' !! "c" = None /\
    style' !! "size" = None /\
    style' !! "fontsize" = Some (Scalar (SNum 9)) /\
    style' !! "horizontalalignment" = Some (Scalar (SStr "center")) /\
    style' !! "verticalalignment" = Some (Scalar (SStr "center")) /\
    forall k, k <> "c" -> k <> "size" -> k <> "fontsize" ->
              k <> "horizontalalignment" -> k <> "verticalalignment" ->
              style' !! k =
                ({["size" := Scalar (SNum 9); "fontsize" := Scalar (SNum 7);
                   "c" := Scalar (SStr "red"); "alpha" := Scalar (SNum 0.5)]} : kwargs) !! k.
Proof.
  exact (labels_style_normalised abbreviating unit (fun _ _ style => Ok style)
           (fun _ _ style => style) (fun _ => "label") labels_element tt
           {["size" := Scalar (SNum 9); "fontsize" := Scalar (SNum 7);
             "c" := Scalar (SStr "red"); "alpha" := Scalar (SNum 0.5)]}
           {["size" := Scalar (SNum 9); "fontsize" := Scalar (SNum 7);
             "c" := Scalar (SStr "red"); "alpha" := Scalar (SNum 0.5)]}
           (labels_self false) eq_refl eq_refl eq_refl).
Defined.

(** X14.  The colour values [get_data] returns are the [c] of the style
    where the style has one, else the values of the dimension that
    [color_index] names where the element has one, else None; the style is
    normalized for the colour dimension only when the element has it.  The
    texts are the printed values of the third dimension, the two position
    arrays are different arrays, and the third result is an empty
    dictionary.  [get_data] returns when the transforms return and each
    configured offset can be added in place to its position array. *)
Theorem labels_colour_source (cm : context_manager) (ranges : Type)
  (_apply_transforms : element -> ranges -> kwargs -> result kwargs)
  (_norm_kwargs : element -> ranges -> kwargs -> kwargs)
  (pprint_value : scalar -> string)
  (el : element) (rs : ranges) (style style1 : kwargs) (p : labels_plot) :
  _apply_transforms el rs style = Ok style1 ->
  addable (xoffset p) (dimension_values_0 el) = true ->
  addable (yoffset p) (dimension_values_1 el) = true ->
  exists a0 a1 cs style' p',
    LabelsPlot.get_data cm ranges _apply_transforms _norm_kwargs pprint_value el rs style p
      = (Ok ((a0, a1, map pprint_value (dimension_values_2 el), cs), style', ∅), p') /\
    a0 <> a1 /\
    cs = match get_dimension el (color_index p) with
         | Some values =>
             match _norm_kwargs el rs style1 !! "c" with
             | Some c => c
             | None => values
             end
         | None =>
             match style1 !! "c" with
             | Some c => c
             | None => Scalar SNone
             end
         end.
Proof.
  intros Htransforms Hx Hy.
  destruct (get_data_returns cm ranges _apply_transforms _norm_kwargs pprint_value
              el rs style style1 p Htransforms Hx Hy) as (a0 & a1 & p' & Hne & ->).
  cbv zeta. eexists _, _, _, _, _. split; [reflexivity|]. split; [exact Hne|].
  unfold labels_base_style. destruct (get_dimension el (color_index p)); simpl;
    by destruct (_ !! "c").
Qed.

Lemma labels_colour_source_witness :
  exists a0 a1 cs style' p',
    LabelsPlot.get_data abbreviating unit (fun _ _ style => Ok style)
      (fun _ _ style => <["vmin" := Scalar (SNum 0)]> style)
      (fun _ => "label")
      (Element (FloatArray [1]%float) (FloatArray [2]%float) [SStr "a"]
               (fun _ => Some (NdArray "f" [SNum 3]))) tt
      {["c" := Scalar (SStr "red")]} (labels_self false)
      = (Ok ((a0, a1, ["label"], cs), style', ∅), p') /\
    a0 <> a1 /\
    cs = Scalar (SStr "red").
Proof.
  exact (labels_colour_source abbreviating unit (fun _ _ style => Ok style)
           (fun _ _ style => <["vmin" := Scalar (SNum 0)]> style) (fun _ => "label")
           (Element (FloatArray [1]%float) (FloatArray [2]%float) [SStr "a"]
                    (fun _ => Some (NdArray "f" [SNum 3]))) tt
           {["c" := Scalar (SStr "red")]} {["c" := Scalar (SStr "red")]}
           (labels_self false) eq_refl eq_refl eq_refl).
Defined.

(** X15.  When the style transforms raise an exception [e], [get_data]
    ends as the context manager decides.  If the manager lets [e] through or
    raises another exception, [get_data] raises it before making any array
    and leaves the plot as it was.  If the manager swallows [e], [get_data]
    carries on with the style it was given, untransformed, after the
    diagnostics have been reported. *)
Theorem labels_transforms_failure (cm : context_manager) (ranges : Type)
  (_apply_transforms : element -> ranges -> kwargs -> result kwargs)
  (_norm_kwargs : element -> ranges -> kwargs -> kwargs)
  (pprint_value : scalar -> string)
  (el : element) (rs : ranges) (style : kwargs) (p : labels_plot) (e : exn) :
  _apply_transforms el rs style = Raise e ->
  LabelsPlot.get_data cm ranges _apply_transforms _norm_kwargs pprint_value el rs style p
  = match cm e with
    | Suppress diagnostics =>
        LabelsPlot.get_data cm ranges (fun _ _ _ => Ok style) _norm_kwargs pprint_value
          el rs style (report diagnostics p)
    | Propagate => (Raise e, p)
    | Reraise e' => (Raise e', p)
    end.
Proof.
  intros Htransforms. unfold LabelsPlot.get_data, bind at 1, with_ at 1.
  rewrite Htransforms. by destruct (cm e).
Qed.

Lemma labels_transforms_failure_witness :
  LabelsPlot.get_data abbreviating unit (fun _ _ _ => Raise TypeError) (fun _ _ style => style)
    (fun _ => "label") labels_element tt ∅ (labels_self false)
  = (Raise (AbbreviatedException TypeError), labels_self false).
Proof.
  exact (labels_transforms_failure abbreviating unit (fun _ _ _ => Raise TypeError)
           (fun _ _ style => style) (fun _ => "label") labels_element tt ∅
           (labels_self false) TypeError eq_refl).
Defined.

(** ** LabelsPlot.init_artists *)

(** X16.  Without points (no x value) [init_artists] returns the group
    ['artist'] with no handle and leaves the axes as they are: neither the
    marker plot nor a text is made.  This holds without colours and, when
    [plot_kwargs] holds the two bounds, with a colour array. *)
Theorem labels_no_points (np_unique : list scalar -> list scalar)
  (ys : list float) (text : list string) (kind : ascii) (values : list scalar)
  (pk : kwargs) (vmin vmax : value) (ax : axes) :
  LabelsPlot.init_artists np_unique ([], ys, text, Scalar SNone) pk ax
    = (Ok {["artist" := []]}, ax) /\
  (pk !! "vmin" = Some vmin -> pk !! "vmax" = Some vmax ->
   LabelsPlot.init_artists np_unique ([], ys, text, NdArray kind values) pk ax
     = (Ok {["artist" := []]}, ax)).
Proof.
  split; [reflexivity|]. intros Hvmin Hvmax.
  unfold LabelsPlot.init_artists, LabelsPlot.pop, bind. simpl.
  rewrite lookup_delete_ne, Hvmin by done. simpl.
  rewrite !lookup_delete_ne, Hvmax by done. reflexivity.
Qed.

Lemma labels_no_points_witness :
  LabelsPlot.init_artists sorted_unique ([], [4]%float, ["x"], Scalar SNone) labels_kwargs ax0
    = (Ok {["artist" := []]}, ax0) /\
  LabelsPlot.init_artists sorted_unique ([], [4]%float, ["x"], NdArray "f" [SNum 5])
    labels_kwargs ax0
    = (Ok {["artist" := []]}, ax0).
Proof.
  split.
  - exact (proj1 (labels_no_points sorted_unique [4]%float ["x"] "f" [SNum 5] labels_kwargs
                    (Scalar (SNum 0)) (Scalar (SNum 10)) ax0)).
  - exact (proj2 (labels_no_points sorted_unique [4]%float ["x"] "f" [SNum 5] labels_kwargs
                    (Scalar (SNum 0)) (Scalar (SNum 10)) ax0) eq_refl eq_refl).
Defined.

(** X17.  With a colour array, [init_artists] takes [vmin] and then [vmax]
    out of [plot_kwargs] whether or not there is a colormap: where [vmin] is
    missing it raises [KeyError] for [vmin], and where only [vmax] is missing
    it raises [KeyError] for [vmax]; in both cases nothing is put on the
    axes. *)
Theorem labels_missing_bound (np_unique : list scalar -> list scalar)
  (xs ys : list float) (text : list string) (kind : ascii) (values : list scalar)
  (pk : kwargs) (ax : axes) :
  (pk !! "vmin" = None ->
   LabelsPlot.init_artists np_unique (xs, ys, text, NdArray kind values) pk ax
     = (Raise (KeyError "vmin"), ax)) /\
  (is_Some (pk !! "vmin") -> pk !! "vmax" = None ->
   LabelsPlot.init_artists np_unique (xs, ys, text, NdArray kind values) pk ax
     = (Raise (KeyError "vmax"), ax)).
Proof.
  split.
  - intros Hvmin. unfold LabelsPlot.init_artists, LabelsPlot.pop, bind. simpl.
    by rewrite lookup_delete_ne, Hvmin.
  - intros [vmin Hvmin] Hvmax. unfold LabelsPlot.init_artists, LabelsPlot.pop, bind. simpl.
    rewrite lookup_delete_ne, Hvmin by done. simpl.
    by rewrite !lookup_delete_ne, Hvmax.
Qed.

Lemma labels_missing_bound_witness :
  LabelsPlot.init_artists sorted_unique ([1]%float, [4]%float, ["x"], NdArray "f" [SNum 5])
    {["cmap" := Colormap "viridis"]} ax0
    = (Raise (KeyError "vmin"), ax0) /\
  LabelsPlot.init_artists sorted_unique ([1]%float, [4]%float, ["x"], NdArray "f" [SNum 5])
    {["vmin" := Scalar (SNum 0)]} ax0
    = (Raise (KeyError "vmax"), ax0).
Proof.
  split.
  - exact (proj1 (labels_missing_bound sorted_unique [1]%float [4]%float ["x"] "f" [SNum 5]
                    {["cmap" := Colormap "viridis"]} ax0) eq_refl).
  - exact (proj2 (labels_missing_bound sorted_unique [1]%float [4]%float ["x"] "f" [SNum 5]
                    {["vmin" := Scalar (SNum 0)]} ax0)
             (mk_is_Some _ (Scalar (SNum 0)) eq_refl) eq_refl).
Defined.

(** The part of [text_spec] that resolves the colour either leaves
    [plot_kwargs] as it is or sets its [color]. *)
Lemma text_spec_returns (c : option LabelsPlot.colouring)
  (vectorized : gmap string (list scalar)) (i : nat) (item : LabelsPlot.item)
  (pk pk' : kwargs) (s : LabelsPlot.spec) :
  LabelsPlot.text_spec c vectorized i item pk = (Ok s, pk') ->
  s = (item.1, ((fun l => Scalar (nth i l SNone)) <$> vectorized) ∪ pk') /\
  map_Forall (fun _ l => i < length l) vectorized /\
  (pk' = pk \/ exists rgba, pk' = <["color" := Scalar rgba]> pk).
Proof.
  destruct item as [[[x y] t] color]. unfold LabelsPlot.text_spec.
  unfold bind at 1.
  match goal with
  | |- context [match ?pre pk with _ => _ end] =>
      assert (forall r pk1, pre pk = (r, pk1) ->
                pk1 = pk \/ exists rgba, pk1 = <["color" := Scalar rgba]> pk) as Hpre;
      [|destruct (pre pk) as [[[]|e] pk1] eqn:Hrun; [|discriminate]]
  end.
  { intros r pk1. destruct color as [color|], c as [c|]; try (intros [= <- <-]; by left).
    destruct (negb _); [|intros [= <- <-]; by left].
    unfold bind, sub, div, call, modify, ret, raise.
    destruct (kind_in_if _).
    - destruct (LabelsPlot.vmin c) as [lo| |], (LabelsPlot.vmax c) as [hi| |]; simpl;
        try destruct (as_number color); simpl;
        try destruct (as_number lo); simpl;
        try destruct (as_number hi); simpl;
        rewrite ?as_number_of_number; simpl;
        destruct (LabelsPlot.cmap c); intros [= <- <-]; eauto.
    - destruct (LabelsPlot.cmap c); intros [= <- <-]; eauto. }
  unfold bind, gets, ret, LabelsPlot.vectorized_at. simpl.
  case_bool_decide as Hlen; [|discriminate]. intros [= <- <-].
  split_and!; [done|done|]. by eapply Hpre.
Qed.

(** X18.  When [text_spec] returns for the point of index [i], the
    keywords of the text are [plot_kwargs], with the colour the call may have
    resolved, under the entries of index [i] of the vectorized styles: a
    vectorized style, [color] included, takes the place of the scalar of the
    same name, so a vectorized [color] hides the colour resolved from the
    colormap.  The position and text are those of the item. *)
Theorem text_spec_vectorized_over_scalars (c : option LabelsPlot.colouring)
  (vectorized : gmap string (list scalar)) (i : nat) (item : LabelsPlot.item)
  (pk pk' : kwargs) (s : LabelsPlot.spec) :
  LabelsPlot.text_spec c vectorized i item pk = (Ok s, pk') ->
  s.1 = item.1 /\
  (forall k l, vectorized !! k = Some l ->
               i < length l /\ s.2 !! k = Scalar <$> l !! i) /\
  (forall k, vectorized !! k = None -> s.2 !! k = pk' !! k) /\
  (forall k, k <> "color" -> pk' !! k = pk !! k).
Proof.
  intros Hrun. apply text_spec_returns in Hrun as (-> & Hlen & Hpk). simpl.
  split_and!; [done| | |].
  - intros k l Hk. pose proof (Hlen k l Hk) as Hi. simpl in Hi. split; [done|].
    rewrite (lookup_union_l' _ _ k) by (rewrite lookup_fmap, Hk; by eexists).
    rewrite lookup_fmap, Hk. simpl.
    destruct (lookup_lt_is_Some_2 l i Hi) as [v Hv]. rewrite Hv. simpl.
    by rewrite (nth_lookup_Some _ _ _ _ Hv).
  - intros k Hk. apply lookup_union_r. by rewrite lookup_fmap, Hk.
  - intros k Hne. destruct Hpk as [->|[rgba ->]]; [done|]. by rewrite lookup_insert_ne.
Qed.

Lemma text_spec_vectorized_over_scalars_witness :
  let c := LabelsPlot.Colouring (Colormap "viridis") [] (Scalar (SNum 0)) (Scalar (SNum 10)) "f" in
  let vectorized : gmap string (list scalar) := {["color" := [SStr "red"; SStr "blue"]]} in
  let r := LabelsPlot.text_spec (Some c) vectorized 1
             (1%float, 2%float, "x", Some (SNum 5)) ∅ in
  match r.1 with
  | Ok s =>
      s.1 = (1%float, 2%float, "x") /\
      (forall k l, vectorized !! k = Some l ->
                   1 < length l /\ s.2 !! k = Scalar <$> l !! 1) /\
      (forall k, vectorized !! k = None -> s.2 !! k = r.2 !! k) /\
      (forall k, k <> "color" -> r.2 !! k = (∅ : kwargs) !! k)
  | Raise _ => False
  end.
Proof.
  exact (text_spec_vectorized_over_scalars
           (Some (LabelsPlot.Colouring (Colormap "viridis") [] (Scalar (SNum 0))
                    (Scalar (SNum 10)) "f"))
           {["color" := [SStr "red"; SStr "blue"]]} 1
           (1%float, 2%float, "x", Some (SNum 5)) ∅ _ _ eq_refl).
Defined.

(** A call of [init_artists] that returns has made the marker plot, unless
    there is no point, and then the texts, and returns the handles of the
    texts. *)
Lemma init_artists_returns (np_unique : list scalar -> list scalar)
  (plot_args : list float * list float * list string * value) (pk : kwargs)
  (ax ax' : axes) (m : gmap string (list handle)) :
  LabelsPlot.init_artists np_unique plot_args pk ax = (Ok m, ax') ->
  exists specs ax1 hs,
    ((specs = [] /\ ax1 = ax) \/
     (specs <> [] /\
      ax1 = Axes (<[next_id ax := ScatterArtist (map (fun s => s.1.1.1) specs)
                                    (map (fun s => s.1.1.2) specs)]> (children ax))
                 (S (next_id ax)) (xbound ax) (callbacks ax)
                 (canvas_draws ax) (artist_draws ax))) /\
    LabelsPlot.texts specs ax1 = (Ok hs, ax') /\
    m = {["artist" := hs]}.
Proof.
  destruct plot_args as [[[xs ys] text] cs]. unfold LabelsPlot.init_artists.
  unfold bind at 1.
  match goal with
  | |- context [match ?pre ax with _ => _ end] =>
      assert (forall r ax1, pre ax = (r, ax1) -> ax1 = ax) as Hpre;
      [|destruct (pre ax) as [[[[c items] pk1]|e] axb] eqn:Hrun; [|discriminate]]
  end.
  { intros r ax1. destruct cs as [[]| |]; try by intros [= <- <-].
    unfold bind, LabelsPlot.pop, ret, raise.
    destruct (delete "cmap" pk !! "vmin"); [|by intros [= <- <-]]. simpl.
    destruct (delete "vmin" (delete "cmap" pk) !! "vmax"); by intros [= <- <-]. }
  pose proof (Hpre _ _ eq_refl) as ->. clear Hpre Hrun. unfold bind at 1.
  destruct (LabelsPlot.text_specs c _ 0 items pk1).1 as [specs|e]; [|discriminate].
  unfold bind at 1. intros Hrun. exists specs.
  destruct specs as [|s specs].
  - unfold ret at 1 in Hrun. unfold bind in Hrun.
    destruct (LabelsPlot.texts [] ax) as [[hs|e] ax2] eqn:Htexts; [|discriminate].
    injection Hrun as <- <-. exists ax, hs. split_and!; [by left|done|done].
  - unfold bind at 1, scatter, add_artist, ret at 1 in Hrun. unfold bind in Hrun.
    match type of Hrun with
    | context [LabelsPlot.texts ?l ?a] =>
        destruct (LabelsPlot.texts l a) as [[hs|e] ax2] eqn:Htexts; [|discriminate];
        exists a, hs
    end.
    injection Hrun as <- <-. split_and!; [by right|done|done].
Qed.

(** Removing distinct artists that are on the axes takes exactly them off. *)
Lemma remove_all (l : list handle) :
  forall ax : axes,
    NoDup l ->
    (forall h, h ∈ l -> is_Some (children ax !! h)) ->
    exists ax',
      for_each l remove ax = (Ok tt, ax') /\
      (forall h, children ax' !! h = if decide (h ∈ l) then None else children ax !! h) /\
      next_id ax' = next_id ax.
Proof.
  induction l as [|x l IH]; intros ax Hnd Hlive.
  - exists ax. split_and!; [done| |done]. intros h.
    by rewrite decide_False by apply not_elem_of_nil.
  - apply NoDup_cons in Hnd as [Hx Hnd].
    destruct (Hlive x) as [a Ha]; [by left|].
    destruct (IH (set_children (delete x) ax) Hnd) as (ax' & Hrun & Hlook & Hnext).
    { intros h Hh. unfold set_children; simpl. rewrite lookup_delete_ne.
      - apply Hlive. by right.
      - intros ->. done. }
    exists ax'. split_and!.
    + simpl. unfold bind at 1, remove. rewrite Ha. exact Hrun.
    + intros h. rewrite Hlook. unfold set_children; simpl.
      destruct (decide (h = x)) as [->|Hne].
      * rewrite decide_False by done. rewrite lookup_delete_eq.
        by rewrite decide_True by left.
      * rewrite lookup_delete_ne by done.
        destruct (decide (h ∈ l)).
        -- by rewrite decide_True by (by right).
        -- rewrite decide_False; [done|]. intros [?|?]%elem_of_cons; done.
    + by rewrite Hnext.
Qed.

(** X19.  [teardown_handles] undoes the texts of [init_artists] and
    nothing else.  Called with the handles a call of [init_artists] returned,
    on the axes that call left, it returns; every text of the call is then
    off the axes, the artists that were on the axes before the call are as
    they were, and the marker plot that the call made when there was a point
    is still on the axes: it is in no group of handles. *)
Theorem labels_teardown_after_init (np_unique : list scalar -> list scalar)
  (plot_args : list float * list float * list string * value) (pk : kwargs)
  (ax ax' : axes) (m : gmap string (list handle)) :
  LabelsPlot.init_artists np_unique plot_args pk ax = (Ok m, ax') ->
  exists hs ax'',
    m = {["artist" := hs]} /\
    LabelsPlot.teardown_handles m ax' = (Ok tt, ax'') /\
    (forall h, h ∈ hs -> is_Some (children ax' !! h) /\ children ax'' !! h = None) /\
    (forall h, h < next_id ax -> children ax'' !! h = children ax !! h) /\
    (hs <> [] -> exists sx sy, children ax'' !! next_id ax = Some (ScatterArtist sx sy)
                               /\ length sx = length hs /\ length sy = length hs).
Proof.
  intros Hinit.
  apply init_artists_returns in Hinit as (specs & ax1 & hs & Hax1 & Htexts & ->).
  destruct (texts_run specs ax1) as (ax2 & Htexts' & Hnew & Hold).
  rewrite Htexts in Htexts'. injection Htexts' as -> <-.
  destruct (remove_all (seq (next_id ax1) (length specs)) ax') as (ax'' & Hrun & Hlook & _).
  { apply NoDup_seq. }
  { intros h Hh. apply list_elem_of_lookup_1 in Hh as [j Hj].
    apply lookup_seq in Hj as [-> Hj].
    destruct (lookup_lt_is_Some_2 specs j Hj) as [s Hs]. eexists. exact (Hnew j s Hs). }
  exists (seq (next_id ax1) (length specs)), ax''. split_and!.
  - done.
  - unfold LabelsPlot.teardown_handles. by rewrite lookup_singleton_eq.
  - intros h Hh. split.
    + apply list_elem_of_lookup_1 in Hh as [j Hj].
      apply lookup_seq in Hj as [-> Hj].
      destruct (lookup_lt_is_Some_2 specs j Hj) as [s Hs]. eexists. exact (Hnew j s Hs).
    + by rewrite Hlook, decide_True.
  - intros h Hh. rewrite Hlook, decide_False.
    + destruct Hax1 as [[_ ->]|[_ ->]]; [by apply Hold|].
      rewrite Hold by (simpl; lia). simpl. apply lookup_insert_ne. lia.
    + intros Hin. apply list_elem_of_lookup_1 in Hin as [j Hj].
      apply lookup_seq in Hj as [-> Hj].
      destruct Hax1 as [[_ ->]|[_ ->]]; simpl in *; lia.
  - intros Hhs. destruct Hax1 as [[-> _]|[_ ->]]; [done|].
    eexists _, _. split_and!.
    + rewrite Hlook, decide_False.
      * rewrite Hold by (simpl; lia). simpl. apply lookup_insert_eq.
      * intros Hin. apply list_elem_of_lookup_1 in Hin as [j Hj].
        apply lookup_seq in Hj as [Hj _]. simpl in Hj. lia.
    + by rewrite length_map, length_seq.
    + by rewrite length_map, length_seq.
Qed.

Lemma labels_teardown_after_init_witness :
  let r := LabelsPlot.init_artists sorted_unique
             ([1; 2; 3]%float, [4; 5; 6]%float, ["x"; "y"; "z"],
              NdArray "f" (SNum <$> [5; 15; -5]%float)) labels_kwargs ax0 in
  exists hs ax'',
    {["artist" := [1; 2; 3]]} = ({["artist" := hs]} : gmap string (list handle)) /\
    LabelsPlot.teardown_handles {["artist" := [1; 2; 3]]} r.2 = (Ok tt, ax'') /\
    (forall h, h ∈ hs -> is_Some (children r.2 !! h) /\ children ax'' !! h = None) /\
    (forall h, h < 0 -> children ax'' !! h = children ax0 !! h) /\
    (hs <> [] -> exists sx sy, children ax'' !! 0 = Some (ScatterArtist sx sy)
                               /\ length sx = length hs /\ length sy = length hs).
Proof.
  exact (labels_teardown_after_init sorted_unique
           ([1; 2; 3]%float, [4; 5; 6]%float, ["x"; "y"; "z"],
            NdArray "f" (SNum <$> [5; 15; -5]%float)) labels_kwargs ax0 _ _ eq_refl).
Defined.

(** Without a colouring, [text_spec] leaves [plot_kwargs] alone: the specs
    are the items, each with [plot_kwargs] under the vectorized entries of
    its index. *)
Lemma text_specs_plain (vectorized : gmap string (list scalar))
  (items : list LabelsPlot.item) :
  forall (i : nat) (pk : kwargs),
    (forall k l, vectorized !! k = Some l -> i + length items <= length l) ->
    LabelsPlot.text_specs None vectorized i items pk =
      (Ok (imap (fun j (it : LabelsPlot.item) =>
                   (it.1, ((fun l => Scalar (nth (i + j) l SNone)) <$> vectorized) ∪ pk))
                items), pk).
Proof.
  induction items as [|[[[x y] t] color] items IH]; intros i pk Hlen; [done|].
  cbn [LabelsPlot.text_specs]. unfold bind at 1.
  assert (LabelsPlot.text_spec None vectorized i (x, y, t, color) pk =
          (Ok (x, y, t, ((fun l => Scalar (nth i l SNone)) <$> vectorized) ∪ pk), pk)) as ->.
  { unfold LabelsPlot.text_spec, bind, gets, ret, LabelsPlot.vectorized_at.
    destruct color; simpl; rewrite bool_decide_eq_true_2; try done;
      intros k l Hk; apply Hlen in Hk; simpl in *; lia. }
  unfold bind. rewrite IH by (intros k l Hk; apply Hlen in Hk; simpl in Hk; lia).
  unfold ret. cbn [imap]. rewrite Nat.add_0_r. do 3 f_equal.
  apply imap_ext. intros j it _. simpl. by rewrite Nat.add_succ_r.
Qed.

(** X20.  Without colours, [init_artists] makes one text for each point
    that has an x, a y and a text: as many texts as the shortest of the
    three arrays has values.  The text of index [j] stands at the position
    and shows the text of that index.  Its keywords are those of
    [plot_kwargs], where each style that is an array gives its entry of index
    [j] and every other style its value as it is; the style arrays must have
    an entry for each x value.  On this path nothing is taken out of
    [plot_kwargs], so it must hold keywords of [ax.text] only: no colormap
    and no bounds. *)
Theorem labels_plain_texts (np_unique : list scalar -> list scalar)
  (xs ys : list float) (text : list string) (pk : kwargs) (ax : axes) :
  (forall k, is_Some (pk !! k) -> k ∈ text_keywords) ->
  (forall k kd items, pk !! k = Some (NdArray kd items) -> length xs <= length items) ->
  exists hs ax',
    LabelsPlot.init_artists np_unique (xs, ys, text, Scalar SNone) pk ax
      = (Ok {["artist" := hs]}, ax') /\
    length hs = (length xs `min` length ys) `min` length text /\
    forall j x y t,
      xs !! j = Some x -> ys !! j = Some y -> text !! j = Some t ->
      exists h kw,
        hs !! j = Some h /\
        children ax' !! h = Some (TextArtist x y t kw) /\
        forall k, kw !! k = match pk !! k with
                            | Some (NdArray _ items) => Scalar <$> items !! j
                            | other => other
                            end.
Proof.
  intros _ Hvec.
  set (vectorized :=
         omap (fun v => match v with NdArray _ items => Some items | _ => None end) pk).
  set (items := map (fun p : float * float * string => (p, @None scalar))
                    (zip (zip xs ys) text)).
  assert (length items = (length xs `min` length ys) `min` length text) as Hn.
  { unfold items. by rewrite length_map, !length_zip_with. }
  assert (forall k l, vectorized !! k = Some l <-> exists kd, pk !! k = Some (NdArray kd l))
    as Hvec'.
  { intros k l. unfold vectorized. rewrite lookup_omap.
    destruct (pk !! k) as [[| kd l' |]|]; simpl; split;
      try (by intros [= ->]; eauto); try done; try (by intros [? [= ]]).
    by intros [? [= _ ->]]. }
  set (specs := imap (fun j (it : LabelsPlot.item) =>
                        (it.1, ((fun l => Scalar (nth (0 + j) l SNone)) <$> vectorized) ∪ pk))
                     items).
  assert (exists ax1, forall T (k : unit -> M axes T),
             bind match specs with
                  | [] => ret tt
                  | _ => _ <- scatter (map (fun s => s.1.1.1) specs)
                                      (map (fun s => s.1.1.2) specs) ;; ret tt
                  end k ax = k tt ax1) as [ax1 Hscatter].
  { destruct specs; [by exists ax|]. eexists. intros T k. reflexivity. }
  destruct (texts_run specs ax1) as (ax' & Htexts & Hnew & _).
  exists (seq (next_id ax1) (length specs)), ax'. split_and!.
  - unfold LabelsPlot.init_artists. simpl. unfold bind at 1, ret at 1.
    fold vectorized items. unfold bind at 1.
    pose proof (text_specs_plain vectorized items 0 pk) as Hspecs.
    rewrite Hspecs.
    2:{ intros k l [kd Hk]%Hvec'. apply Hvec in Hk.
        unfold LabelsPlot.item in *. lia. }
    cbn [fst]. fold specs. rewrite Hscatter. unfold bind. by rewrite Htexts.
  - unfold specs. by rewrite length_seq, length_imap.
  - intros j x y t Hx Hy Ht.
    assert (specs !! j =
            Some (x, y, t, ((fun l => Scalar (nth j l SNone)) <$> vectorized) ∪ pk)) as Hs.
    { unfold specs, items. rewrite list_lookup_imap, list_lookup_fmap.
      assert (zip (zip xs ys) text !! j = Some (x, y, t)) as ->; [|done].
      apply lookup_zip_with_Some. exists (x, y), t.
      split_and!; [done| |done]. apply lookup_zip_with_Some. eauto. }
    eexists (next_id ax1 + j), _. split_and!.
    + apply lookup_seq. split; [done|]. by apply lookup_lt_Some in Hs.
    + exact (Hnew j _ Hs).
    + intros k. simpl. rewrite lookup_union, lookup_fmap.
      destruct (pk !! k) as [v|] eqn:Hk.
      * destruct (vectorized !! k) as [l|] eqn:Hl.
        -- apply Hvec' in Hl as [kd Hl]. rewrite Hk in Hl. injection Hl as ->.
           simpl. apply lookup_lt_Some in Hx. apply Hvec in Hk.
           destruct (lookup_lt_is_Some_2 l j) as [c Hc]; [lia|].
           by rewrite Hc, (nth_lookup_Some _ _ _ _ Hc).
        -- simpl. destruct v as [| kd l |]; try done.
           assert (vectorized !! k = Some l) as Hl' by (apply Hvec'; eauto).
           by rewrite Hl in Hl'.
      * destruct (vectorized !! k) as [l|] eqn:Hl; [|done].
        apply Hvec' in Hl as [kd Hl]. by rewrite Hk in Hl.
Qed.

(** The keywords of the texts are the style options of the class, [cmap]
    left out and [size] renamed. *)
Example text_keywords_style_opts :
  text_keywords =
    (fun k => if String.eqb k "size" then "fontsize" else k)
      <$> filter (fun k => k <> "cmap") LabelsPlot.style_opts.
Proof. reflexivity. Qed.

Lemma labels_text_kwargs_keywords (k : string) :
  is_Some (labels_text_kwargs !! k) -> k ∈ text_keywords.
Proof.
  intros [v Hk]. unfold labels_text_kwargs in Hk.
  repeat (rewrite lookup_insert in Hk; case_decide;
          [subst k; repeat first [apply list_elem_of_here | apply list_elem_of_further]|]).
  by rewrite lookup_empty in Hk.
Qed.

Lemma labels_text_kwargs_vectorized (k : string) (kd : ascii) (items : list scalar) :
  labels_text_kwargs !! k = Some (NdArray kd items) -> 3 <= length items.
Proof.
  unfold labels_text_kwargs. intros Hk.
  repeat (rewrite lookup_insert in Hk; case_decide; [try discriminate Hk|]).
  - injection Hk as _ <-. simpl. lia.
  - by rewrite lookup_empty in Hk.
Qed.

Lemma labels_plain_texts_witness :
  exists hs ax',
    LabelsPlot.init_artists sorted_unique
      ([1; 2; 3]%float, [4; 5; 6]%float, ["x"; "y"], Scalar SNone) labels_text_kwargs ax0
      = (Ok {["artist" := hs]}, ax') /\
    length hs = 2 /\
    forall j x y t,
      [1; 2; 3]%float !! j = Some x -> [4; 5; 6]%float !! j = Some y ->
      ["x"; "y"] !! j = Some t ->
      exists h kw,
        hs !! j = Some h /\
        children ax' !! h = Some (TextArtist x y t kw) /\
        forall k, kw !! k = match labels_text_kwargs !! k with
                            | Some (NdArray _ items) => Scalar <$> items !! j
                            | other => other
                            end.
Proof.
  exact (labels_plain_texts sorted_unique [1; 2; 3]%float [4; 5; 6]%float ["x"; "y"]
           labels_text_kwargs ax0 labels_text_kwargs_keywords labels_text_kwargs_vectorized).
Defined.

(** Without a colouring, the specs cannot be made when a vectorized style
    has fewer entries than there are items left to number. *)
Lemma text_specs_short (vectorized : gmap string (list scalar))
  (items : list LabelsPlot.item) (k : string) (l : list scalar) :
  vectorized !! k = Some l ->
  forall (i : nat) (pk : kwargs),
    i <= length l -> length l < i + length items ->
    LabelsPlot.text_specs None vectorized i items pk = (Raise IndexError, pk).
Proof.
  intros Hk. induction items as [|[[[x y] t] color] items IH]; intros i pk Hi Hlen.
  - simpl in Hlen. lia.
  - cbn [LabelsPlot.text_specs]. unfold bind at 1.
    assert (LabelsPlot.text_spec None vectorized i (x, y, t, color) pk =
            if bool_decide (map_Forall (fun _ v => i < length v) vectorized)
            then (Ok (x, y, t, ((fun l => Scalar (nth i l SNone)) <$> vectorized) ∪ pk), pk)
            else (Raise IndexError, pk)) as ->.
    { unfold LabelsPlot.text_spec, bind, gets, ret, LabelsPlot.vectorized_at.
      destruct color; simpl; by destruct (bool_decide _). }
    case_bool_decide as Hall; [|done].
    pose proof (Hall k l Hk) as Hil. simpl in Hil.
    unfold bind. rewrite IH; [done|lia|simpl in Hlen; lia].
Qed.

(** X21.  Without colours, a style given as an array with fewer entries
    than there are points makes [init_artists] raise [IndexError]; the axes
    are left as they are, since every spec is made before anything is
    drawn. *)
Theorem labels_short_style_array (np_unique : list scalar -> list scalar)
  (xs ys : list float) (text : list string) (pk : kwargs) (ax : axes)
  (k : string) (kd : ascii) (items : list scalar) :
  pk !! k = Some (NdArray kd items) ->
  length items < (length xs `min` length ys) `min` length text ->
  LabelsPlot.init_artists np_unique (xs, ys, text, Scalar SNone) pk ax
    = (Raise IndexError, ax).
Proof.
  intros Hk Hlen. unfold LabelsPlot.init_artists. simpl. unfold bind at 1, ret at 1.
  unfold bind at 1. rewrite (text_specs_short _ _ k items).
  - done.
  - rewrite lookup_omap, Hk. done.
  - lia.
  - rewrite length_map, !length_zip_with. lia.
Qed.

Lemma labels_short_style_array_witness :
  LabelsPlot.init_artists sorted_unique
    ([1; 2; 3]%float, [4; 5; 6]%float, ["x"; "y"; "z"], Scalar SNone)
    {["rotation" := NdArray "f" [SNum 0; SNum 90]]} ax0
    = (Raise IndexError, ax0).
Proof.
  exact (labels_short_style_array sorted_unique [1; 2; 3]%float [4; 5; 6]%float
           ["x"; "y"; "z"] {["rotation" := NdArray "f" [SNum 0; SNum 90]]} ax0
           "rotation" "f" [SNum 0; SNum 90] eq_refl ltac:(vm_compute; lia)).
Defined.
